(** * keyword_generator.py: a shallow embedding and its specification

    The script asks one of two generative-AI HTTP services for a JSON object
    [{"keywords": [...]}], normalises the answer, and stores it in a file.

    Modelling conventions.
    - A Python [str] is a sequence of Unicode code points: [list N].
      A Python [bytes] (the content of a file on disk) is a Rocq [string],
      whose characters are 8-bit.  The two are related by [Utf8.encode] and
      [Utf8.decode], the codec named in [open(..., encoding="utf-8")].
    - Python objects that come out of [json.loads] are values of [json].
      Float literals (and [NaN], [Infinity]) are outside the modelled
      fragment: the decoder answers [Unmodelled] on them, and so does every
      computation that depends on such an answer.
    - The standard library and [requests] are modelled as far as the script
      uses them: [str.strip], slices, [json.loads], [json.dump] with
      [ensure_ascii=False, indent=2], the UTF-8 codec, [raise_for_status].
    - The world outside the script (environment variables, the clock, the
      HTTP services) is a record [world]; what the script does to the world
      (requests sent, lines printed, files written) is recorded in [state].
    - A computation is a function [state -> outcome A * state]: it returns,
      or raises a Python exception; the state reached is kept either way.
    - [print] and [open] on the output path are taken to succeed, and the
      host to be POSIX (a line feed is written as it is); the interpreter's
      limits (recursion depth, length of integer literals) are not modelled. *)

From Stdlib Require Import ZArith NArith List String Ascii Lia Bool.
From Stdlib Require DecimalFacts DecimalPos DecimalN.
From stdpp Require Import base option gmap list.
Import ListNotations.

Local Open Scope N_scope.

(** Code points and text. *)
Abbreviation char := N (only parsing).
Abbreviation str := (list N) (only parsing).

(** ** The UTF-8 codec *)

Module Utf8.

Definition is_surrogate (c : char) : bool := (0xD800 <=? c) && (c <=? 0xDFFF).

(** Continuation byte carrying the six bits number [k] (from the right) of [c]. *)
Definition cont (c : char) (k : N) : ascii :=
  ascii_of_N (0x80 + (c / 64 ^ k) mod 64).

Definition encode_char (c : char) : option (list ascii) :=
  if c <? 0x80 then Some [ascii_of_N c]
  else if c <? 0x800 then Some [ascii_of_N (0xC0 + c / 64); cont c 0]
  else if c <? 0x10000 then
    if is_surrogate c then None
    else Some [ascii_of_N (0xE0 + c / 4096); cont c 1; cont c 0]
  else if c <? 0x110000 then
    Some [ascii_of_N (0xF0 + c / 262144); cont c 2; cont c 1; cont c 0]
  else None.

Fixpoint prepend (l : list ascii) (b : string) : string :=
  match l with
  | [] => b
  | a :: l' => String a (prepend l' b)
  end.

(** [text.encode("utf-8")]: [None] stands for [UnicodeEncodeError]. *)
Fixpoint encode (s : str) : option string :=
  match s with
  | [] => Some EmptyString
  | c :: r =>
      match encode_char c, encode r with
      | Some l, Some b => Some (prepend l b)
      | _, _ => None
      end
  end.

Definition encodable (s : str) : bool :=
  forallb (fun c => (c <? 0x110000) && negb (is_surrogate c)) s.

Definition is_cont (a : ascii) : bool :=
  let n := N_of_ascii a in (0x80 <=? n) && (n <? 0xC0).

Definition payload (a : ascii) : N := N_of_ascii a - 0x80.

(** [bytes.decode("utf-8")], strict: overlong forms, surrogates and values
    above U+10FFFF are rejected ([None] stands for [UnicodeDecodeError]). *)
Fixpoint decode (b : string) : option str :=
  match b with
  | EmptyString => Some []
  | String a r =>
      let n := N_of_ascii a in
      if n <? 0x80 then cons n <$> decode r
      else if n <? 0xC0 then None
      else if n <? 0xE0 then
        match r with
        | String a1 r1 =>
            let c := (n - 0xC0) * 64 + payload a1 in
            if is_cont a1 && (0x80 <=? c) then cons c <$> decode r1 else None
        | _ => None
        end
      else if n <? 0xF0 then
        match r with
        | String a1 (String a2 r2) =>
            let c := (n - 0xE0) * 4096 + payload a1 * 64 + payload a2 in
            if is_cont a1 && is_cont a2 && (0x800 <=? c) && negb (is_surrogate c)
            then cons c <$> decode r2 else None
        | _ => None
        end
      else if n <? 0xF8 then
        match r with
        | String a1 (String a2 (String a3 r3)) =>
            let c := (n - 0xF0) * 262144 + payload a1 * 4096
                     + payload a2 * 64 + payload a3 in
            if is_cont a1 && is_cont a2 && is_cont a3
               && (0x10000 <=? c) && (c <? 0x110000)
            then cons c <$> decode r3 else None
        | _ => None
        end
      else None
  end.

End Utf8.

(** A string literal of the source file, as the text it denotes.  The
    source file is UTF-8, and so are the literals below. *)
Definition lit (b : string) : str := default [] (Utf8.decode b).

(** ** Operations of [str] used by the script *)

(** [str.isspace] on one code point (the interpreter's whitespace table). *)
Definition isspace (c : char) : bool :=
  ((0x09 <=? c) && (c <=? 0x0D)) || ((0x1C <=? c) && (c <=? 0x20))
  || (c =? 0x85) || (c =? 0xA0) || (c =? 0x1680)
  || ((0x2000 <=? c) && (c <=? 0x200A))
  || (c =? 0x2028) || (c =? 0x2029) || (c =? 0x202F) || (c =? 0x205F)
  || (c =? 0x3000).

Fixpoint lstrip (s : str) : str :=
  match s with
  | c :: r => if isspace c then lstrip r else s
  | [] => []
  end.

Definition rstrip (s : str) : str := rev (lstrip (rev s)).

(** [s.strip()] *)
Definition strip (s : str) : str := rstrip (lstrip s).

(** [s.startswith(p)] *)
Fixpoint startswith (s p : str) : bool :=
  match p, s with
  | [], _ => true
  | a :: p', b :: s' => (a =? b) && startswith s' p'
  | _ :: _, [] => false
  end.

(** A slice bound of Python, resolved against a sequence of length [len]. *)
Definition slice_index (len i : Z) : Z :=
  if (i <? 0)%Z then Z.max (i + len) 0 else Z.min i len.

(** [s[start:stop]] *)
Definition py_slice (s : str) (start stop : Z) : str :=
  let len := Z.of_nat (length s) in
  let lo := slice_index len start in
  let hi := slice_index len stop in
  firstn (Z.to_nat (hi - lo)) (skipn (Z.to_nat lo) s).

(** Decimal digits of a number, as [int.__repr__] prints them. *)
Fixpoint uint_digits (d : Decimal.uint) : str :=
  match d with
  | Decimal.Nil => []
  | Decimal.D0 d' => 48 :: uint_digits d'
  | Decimal.D1 d' => 49 :: uint_digits d'
  | Decimal.D2 d' => 50 :: uint_digits d'
  | Decimal.D3 d' => 51 :: uint_digits d'
  | Decimal.D4 d' => 52 :: uint_digits d'
  | Decimal.D5 d' => 53 :: uint_digits d'
  | Decimal.D6 d' => 54 :: uint_digits d'
  | Decimal.D7 d' => 55 :: uint_digits d'
  | Decimal.D8 d' => 56 :: uint_digits d'
  | Decimal.D9 d' => 57 :: uint_digits d'
  end.

Definition repr_N (n : N) : str := uint_digits (N.to_uint n).

Definition repr_Z (z : Z) : str :=
  if (z <? 0)%Z then 45 :: repr_N (Z.to_N (- z)) else repr_N (Z.to_N z).

(** ** Exceptions *)

Inductive exn_class :=
| ValueError | JSONDecodeError | HTTPError | RequestException
| KeyError | IndexError | TypeError | AttributeError | UnicodeEncodeError.

(** An exception object: its class and [str(e)]. *)
Record exn := Exn { exn_cls : exn_class; exn_str : str }.

(** ** JSON values: the Python objects [json.loads] builds *)

#[local] Set Warnings "-register-all".

Inductive json :=
| JNull
| JBool (b : bool)
| JInt (z : Z)
| JStr (s : str)
| JArr (l : list json)
| JObj (d : list (str * json)).

(** A [dict] with [str] keys: keys are unique and keep the order in which
    they were first inserted. *)
Abbreviation dict := (list (str * json)) (only parsing).

Fixpoint dict_get (d : dict) (k : str) : option json :=
  match d with
  | [] => None
  | (k', v) :: d' => if decide (k' = k) then Some v else dict_get d' k
  end.

(** [d[k] = v] *)
Fixpoint dict_set (d : dict) (k : str) (v : json) : dict :=
  match d with
  | [] => [(k, v)]
  | (k', v') :: d' =>
      if decide (k' = k) then (k', v) :: d' else (k', v') :: dict_set d' k v
  end.

(** [dict(pairs)] *)
Definition dict_of_pairs (pairs : list (str * json)) : dict :=
  fold_left (fun d kv => dict_set d (fst kv) (snd kv)) pairs [].

(** [type(v).__name__] *)
Definition type_name (v : json) : str :=
  match v with
  | JNull => lit "NoneType"
  | JBool _ => lit "bool"
  | JInt _ => lit "int"
  | JStr _ => lit "str"
  | JArr _ => lit "list"
  | JObj _ => lit "dict"
  end.

(** [bool(v)] *)
Definition truthy (v : json) : bool :=
  match v with
  | JNull => false
  | JBool b => b
  | JInt z => negb (z =? 0)%Z
  | JStr s => negb (bool_decide (s = []))
  | JArr l => match l with [] => false | _ => true end
  | JObj d => match d with [] => false | _ => true end
  end.

(** ** [json.loads]: the decoder of the standard library *)

Module Decoder.

(** The messages of [JSONDecodeError]. *)
Inductive problem :=
| ExpectingValue
| ExtraData
| ExpectingPropertyName
| ExpectingColon
| ExpectingComma
| UnterminatedString
| InvalidControl
| InvalidEscape
| InvalidUnicodeEscape
| UnexpectedBOM.

Definition problem_text (p : problem) : str :=
  match p with
  | ExpectingValue => lit "Expecting value"
  | ExtraData => lit "Extra data"
  | ExpectingPropertyName =>
      lit "Expecting property name enclosed in double quotes"
  | ExpectingColon => lit "Expecting ':' delimiter"
  | ExpectingComma => lit "Expecting ',' delimiter"
  | UnterminatedString => lit "Unterminated string starting at"
  | InvalidControl => lit "Invalid control character at"
  | InvalidEscape => lit "Invalid \escape"
  | InvalidUnicodeEscape => lit "Invalid \uXXXX escape"
  | UnexpectedBOM => lit "Unexpected UTF-8 BOM (decode using utf-8-sig)"
  end.

(** What scanning a value at some position gives: the value and the text
    left after it, or [JSONDecodeError(msg, doc, pos)] where [pos] is the
    position at which the text [at_] starts. *)
Inductive scan (A : Type) :=
| Scanned (a : A) (rest : str)
| Failed (msg : problem) (at_ : str)
| Unmodelled
| OutOfFuel.
Arguments Scanned {A} a rest.
Arguments Failed {A} msg at_.
Arguments Unmodelled {A}.
Arguments OutOfFuel {A}.

(** The whitespace of JSON: space, tab, line feed, carriage return. *)
Definition is_ws (c : char) : bool :=
  (c =? 32) || (c =? 9) || (c =? 10) || (c =? 13).

Fixpoint skip_ws (s : str) : str :=
  match s with
  | c :: r => if is_ws c then skip_ws r else s
  | [] => []
  end.

Definition is_digit (c : char) : bool := (48 <=? c) && (c <=? 57).

Definition hex_digit (c : char) : option N :=
  if (48 <=? c) && (c <=? 57) then Some (c - 48)
  else if (97 <=? c) && (c <=? 102) then Some (c - 87)
  else if (65 <=? c) && (c <=? 70) then Some (c - 55)
  else None.

Definition hex4 (a b c d : char) : option N :=
  match hex_digit a, hex_digit b, hex_digit c, hex_digit d with
  | Some x, Some y, Some z, Some w => Some (((x * 16 + y) * 16 + z) * 16 + w)
  | _, _, _, _ => None
  end.

(** The character a backslash escape other than [\u] stands for. *)
Definition backslash (e : char) : option char :=
  if e =? 34 then Some 34          (* quote *)
  else if e =? 92 then Some 92     (* backslash *)
  else if e =? 47 then Some 47     (* slash *)
  else if e =? 98 then Some 8      (* b *)
  else if e =? 102 then Some 12    (* f *)
  else if e =? 110 then Some 10    (* n *)
  else if e =? 114 then Some 13    (* r *)
  else if e =? 116 then Some 9     (* t *)
  else None.

Definition is_high (c : N) : bool := (0xD800 <=? c) && (c <=? 0xDBFF).
Definition is_low (c : N) : bool := (0xDC00 <=? c) && (c <=? 0xDFFF).
Definition join_surrogates (hi lo : N) : N :=
  0x10000 + ((hi - 0xD800) * 1024 + (lo - 0xDC00)).

(** [scanstring], strict: [s] is the text after the opening quote, [begin]
    the text from the opening quote on, [acc] what was read, reversed. *)
Fixpoint scanstring (begin s acc : str) {struct s} : scan str :=
  match s with
  | [] => Failed UnterminatedString begin
  | c :: r =>
      if c =? 34 then Scanned (rev acc) r
      else if c =? 92 then
        match r with
        | [] => Failed UnterminatedString begin
        | e :: r' =>
            if e =? 117 then
              match r' with
              | h1 :: h2 :: h3 :: h4 :: r4 =>
                  match hex4 h1 h2 h3 h4 with
                  | None => Failed InvalidUnicodeEscape r
                  | Some uni =>
                      match r4 with
                      | b :: u :: g1 :: g2 :: g3 :: g4 :: r10 =>
                          if is_high uni && (b =? 92) && (u =? 117) then
                            match hex4 g1 g2 g3 g4 with
                            | None =>
                                Failed InvalidUnicodeEscape (skipn 1 r4)
                            | Some uni2 =>
                                if is_low uni2
                                then scanstring begin r10
                                       (join_surrogates uni uni2 :: acc)
                                else scanstring begin r4 (uni :: acc)
                            end
                          else scanstring begin r4 (uni :: acc)
                      | _ => scanstring begin r4 (uni :: acc)
                      end
                  end
              | _ => Failed InvalidUnicodeEscape r
              end
            else
              match backslash e with
              | Some c' => scanstring begin r' (c' :: acc)
              | None => Failed InvalidEscape s
              end
        end
      else if c <? 0x20 then Failed InvalidControl s
      else scanstring begin r (c :: acc)
  end.

Fixpoint span_digits (s : str) : str * str :=
  match s with
  | c :: r =>
      if is_digit c then let (ds, r') := span_digits r in (c :: ds, r')
      else ([], s)
  | [] => ([], [])
  end.

Definition int_of_digits (ds : str) : Z :=
  fold_left (fun a c => (10 * a + Z.of_N (c - 48))%Z) ds 0%Z.

(** Does a fraction, or (failing that) an exponent, follow the integer part? *)
Definition float_follows (r : str) : bool :=
  match r with
  | 46 :: d :: _ => is_digit d
  | e :: r1 =>
      if (e =? 101) || (e =? 69) then
        match r1 with
        | d :: r2 =>
            if is_digit d then true
            else if (d =? 43) || (d =? 45) then
              match r2 with d' :: _ => is_digit d' | [] => false end
            else false
        | [] => false
        end
      else false
  | [] => false
  end.

(** The text after the character [c], if [s] starts with [c]. *)
Definition after (c : char) (s : str) : option str :=
  match s with
  | x :: r => if x =? c then Some r else None
  | [] => None
  end.

(** The integer part matched by the number pattern at the start of [s]. *)
Definition match_integer (s : str) : option (bool * str * str) :=
  let '(neg, s1) := match after 45 s with
                    | Some r => (true, r)
                    | None => (false, s)
                    end in
  match s1 with
  | c :: r =>
      if c =? 48 then Some (neg, [c], r)
      else if is_digit c then
        let (ds, r') := span_digits r in Some (neg, c :: ds, r')
      else None
  | [] => None
  end.

(** The last cases of the scanner: a number, or one of the constants
    [NaN], [Infinity], [-Infinity], or no value at all. *)
Definition scan_number (s : str) : scan json :=
  match match_integer s with
  | Some (neg, ds, r) =>
      if float_follows r then Unmodelled
      else Scanned (JInt (if neg : bool then - int_of_digits ds
                          else int_of_digits ds)%Z) r
  | None =>
      if startswith s (lit "NaN") || startswith s (lit "Infinity")
         || startswith s (lit "-Infinity")
      then Unmodelled
      else Failed ExpectingValue s
  end.

(** [scan_once], with the loops of [JSONArray] and [JSONObject].
    [array_items] starts where an element is expected; [object_items]
    where the opening quote of a key is expected. *)
Fixpoint scan_once (fuel : nat) (s : str) {struct fuel} : scan json :=
  match fuel with
  | O => OutOfFuel
  | S f =>
      match s with
      | [] => Failed ExpectingValue s
      | c :: r =>
          if c =? 34 then
            match scanstring s r [] with
            | Scanned t r' => Scanned (JStr t) r'
            | Failed m a => Failed m a
            | Unmodelled => Unmodelled
            | OutOfFuel => OutOfFuel
            end
          else if c =? 123 then
            match after 125 (skip_ws r) with
            | Some r' => Scanned (JObj []) r'
            | None => object_items f (skip_ws r) []
            end
          else if c =? 91 then
            match after 93 (skip_ws r) with
            | Some r' => Scanned (JArr []) r'
            | None => array_items f (skip_ws r) []
            end
          else if startswith s (lit "null") then Scanned JNull (skipn 4 s)
          else if startswith s (lit "true") then Scanned (JBool true) (skipn 4 s)
          else if startswith s (lit "false") then Scanned (JBool false) (skipn 5 s)
          else scan_number s
      end
  end
with array_items (fuel : nat) (s : str) (acc : list json) {struct fuel}
  : scan json :=
  match fuel with
  | O => OutOfFuel
  | S f =>
      match scan_once f s with
      | Scanned v r =>
          match after 93 (skip_ws r), after 44 (skip_ws r) with
          | Some r', _ => Scanned (JArr (rev (v :: acc))) r'
          | None, Some r' => array_items f (skip_ws r') (v :: acc)
          | None, None => Failed ExpectingComma (skip_ws r)
          end
      | other => other
      end
  end
with object_items (fuel : nat) (s : str) (acc : list (str * json))
  {struct fuel} : scan json :=
  match fuel with
  | O => OutOfFuel
  | S f =>
      match after 34 s with
      | Some r =>
          match scanstring s r [] with
          | Scanned key r1 =>
              match after 58 (skip_ws r1) with
              | Some r2 =>
                  match scan_once f (skip_ws r2) with
                  | Scanned v r3 =>
                      match after 125 (skip_ws r3), after 44 (skip_ws r3) with
                      | Some r', _ =>
                          Scanned (JObj (dict_of_pairs (rev ((key, v) :: acc)))) r'
                      | None, Some r' =>
                          object_items f (skip_ws r') ((key, v) :: acc)
                      | None, None => Failed ExpectingComma (skip_ws r3)
                      end
                  | other => other
                  end
              | None => Failed ExpectingColon (skip_ws r1)
              end
          | Failed m a => Failed m a
          | Unmodelled => Unmodelled
          | OutOfFuel => OutOfFuel
          end
      | None => Failed ExpectingPropertyName s
      end
  end.

(** What [json.loads(doc)] gives. *)
Inductive loaded :=
| Loaded (v : json)
| DecodeError (msg : problem) (pos : nat)
| NotModelled
| NoFuel.

Definition fuel_for (doc : str) : nat := (2 * length doc + 2)%nat.

Definition loads (doc : str) : loaded :=
  if startswith doc [0xFEFF] then
    DecodeError UnexpectedBOM 0
  else
    match scan_once (fuel_for doc) (skip_ws doc) with
    | Scanned v r =>
        match skip_ws r with
        | [] => Loaded v
        | _ :: _ => DecodeError ExtraData (length doc - length (skip_ws r))
        end
    | Failed m a => DecodeError m (length doc - length a)
    | Unmodelled => NotModelled
    | OutOfFuel => NoFuel
    end.

(** [str(e)] for a [JSONDecodeError]: the message, then the line, the
    column and the position of the error in the document. *)
Definition count_newlines (s : str) : nat :=
  length (filter (fun c => c = 10) s).

Fixpoint since_newline (rev_prefix : str) : nat :=
  match rev_prefix with
  | c :: r => if c =? 10 then O else S (since_newline r)
  | [] => O
  end.

Definition errmsg (msg : problem) (doc : str) (pos : nat) : str :=
  let before := firstn pos doc in
  problem_text msg ++ lit ": line " ++ repr_N (N.of_nat (S (count_newlines before)))
      ++ lit " column " ++ repr_N (N.of_nat (S (since_newline (rev before))))
      ++ lit " (char " ++ repr_N (N.of_nat pos) ++ lit ")".

End Decoder.

(** ** [json.dump(obj, f, ensure_ascii=False, indent=2)]: the encoder *)

Module Encoder.

Definition hex_char (d : N) : char := if d <? 10 then 48 + d else 87 + d.

(** What the encoder writes for one character of a string: quote,
    backslash and the control characters are escaped, everything else,
    non-ASCII included, is kept as it is. *)
Definition escape_char (c : char) : str :=
  if c =? 34 then [92; 34]
  else if c =? 92 then [92; 92]
  else if c =? 8 then [92; 98]
  else if c =? 12 then [92; 102]
  else if c =? 10 then [92; 110]
  else if c =? 13 then [92; 114]
  else if c =? 9 then [92; 116]
  else if c <? 0x20 then [92; 117; 48; 48; hex_char (c / 16); hex_char (c mod 16)]
  else [c].

Definition encode_basestring (s : str) : str :=
  34 :: flat_map escape_char s ++ [34].

(** A line feed and the indentation of nesting depth [level]. *)
Definition newline_indent (level : nat) : str := 10 :: repeat 32 (2 * level).

Definition is_container (v : json) : bool :=
  match v with JArr _ | JObj _ => true | _ => false end.

(** The text of a value that is neither a list nor a dict. *)
Definition atom (v : json) : str :=
  match v with
  | JNull => lit "null"
  | JBool true => lit "true"
  | JBool false => lit "false"
  | JInt z => repr_Z z
  | JStr s => encode_basestring s
  | JArr _ | JObj _ => []
  end.

(** The chunks the encoder yields, in order; each one is handed to
    [f.write] on its own. *)
Fixpoint iterencode (level : nat) (v : json) : list str :=
  match v with
  | JArr [] => [lit "[]"]
  | JArr (x :: l) =>
      let ni := newline_indent (S level) in
      let item := fun (buf : str) (y : json) =>
        if is_container y then buf :: iterencode (S level) y
        else [buf ++ atom y] in
      item (91 :: ni) x ++ flat_map (item (44 :: ni)) l
        ++ [newline_indent level; [93]]
  | JObj [] => [lit "{}"]
  | JObj ((k, x) :: d) =>
      let ni := newline_indent (S level) in
      [123] :: ni :: encode_basestring k :: lit ": " :: iterencode (S level) x
        ++ flat_map (fun kv => match kv with
                               | (k', y) => (44 :: ni) :: encode_basestring k'
                                            :: lit ": " :: iterencode (S level) y
                               end) d
        ++ [newline_indent level; [125]]
  | _ => [atom v]
  end.

(** The whole text written when every chunk gets through. *)
Definition dumps (v : json) : str := concat (iterencode 0 v).

End Encoder.

(** ** The script *)

Record config := Config {
  OPENAI_API_KEY_SECRET : str;
  GEMINI_API_KEY_SECRET : str;
  SEED_KEYWORDS : list str;
  KEYWORD_COUNT : Z;
  OUTPUT_FILENAME : str
}.

Definition CONFIG : config := {|
  OPENAI_API_KEY_SECRET := lit "OPENAI_API_KEY";
  GEMINI_API_KEY_SECRET := lit "GEMINI_API_KEY";
  SEED_KEYWORDS :=
    [lit "IT 트렌드"; lit "AI 신기술"; lit "헬스케어"; lit "MZ세대 유행";
     lit "국내여행 추천"; lit "재테크 방법"; lit "최신 영화 리뷰"];
  KEYWORD_COUNT := 30;
  OUTPUT_FILENAME := lit "keywords.json"
|}.

(** *** The world around the script, and what the script does to it *)

Record request := Request {
  url : str;
  headers : list (str * str);
  payload : json
}.

Record response := Response {
  status_code : Z;
  reason : str;
  response_url : str;
  text : str
}.

(** The process environment, the date [datetime.now()] formats to, and
    what [requests.post] answers: a response, or an exception of the HTTP
    library (no connection, time-out, ...). *)
Record world := World {
  environ : gmap (list N) (list N);
  today : str;
  transport : request -> exn + response
}.

(** The calls of [requests.post] so far, the lines printed so far, and the
    bytes of every file written. *)
Record state := State {
  posted : list request;
  printed : list str;
  files : gmap (list N) string
}.

(** Why a computation falls outside the model. *)
Inductive gap := FloatLiteral | Fuel.

Inductive outcome (A : Type) :=
| Return (a : A)
| Raise (e : exn)
| Outside (g : gap).
Arguments Return {A} a.
Arguments Raise {A} e.
Arguments Outside {A} g.

Definition M (A : Type) : Type := state -> outcome A * state.

#[export] Instance M_ret : MRet M := fun A a s => (Return a, s).

#[export] Instance M_bind : MBind M := fun A B f m s =>
  match m s with
  | (Return a, s') => f a s'
  | (Raise e, s') => (Raise e, s')
  | (Outside g, s') => (Outside g, s')
  end.

Definition raise_ {A} (e : exn) : M A := fun s => (Raise e, s).

(** [try: body  except Exception as e: handler e] *)
Definition try_except {A} (body : M A) (handler : exn -> M A) : M A := fun s =>
  match body s with
  | (Raise e, s') => handler e s'
  | r => r
  end.

Definition print (line : str) : M unit := fun s =>
  (Return tt, {| posted := posted s; printed := printed s ++ [line];
                 files := files s |}).

(** [os.getenv(name)] *)
Definition os_getenv (w : world) (name : str) : option str := environ w !! name.

(** Truth value of what [os.getenv] returns: [None] and the empty string
    are false. *)
Definition key_truthy (k : option str) : bool :=
  match k with
  | Some (_ :: _) => true
  | _ => false
  end.

(** [requests.post(url, headers=..., json=...)] *)
Definition requests_post (w : world) (r : request) : M response := fun s =>
  let s' := {| posted := posted s ++ [r]; printed := printed s;
               files := files s |} in
  match transport w r with
  | inl e => (Raise e, s')
  | inr resp => (Return resp, s')
  end.

(** [response.raise_for_status()] *)
Definition raise_for_status (r : response) : M unit :=
  let msg := fun (kind : str) =>
    repr_Z (status_code r) ++ kind ++ reason r ++ lit " for url: "
      ++ response_url r in
  if (400 <=? status_code r)%Z && (status_code r <? 500)%Z
  then raise_ (Exn HTTPError (msg (lit " Client Error: ")))
  else if (500 <=? status_code r)%Z && (status_code r <? 600)%Z
  then raise_ (Exn HTTPError (msg (lit " Server Error: ")))
  else mret tt.

(** [json.loads(doc)], and [response.json()] which is the same on the
    text of the response. *)
Definition json_loads (doc : str) : M json :=
  match Decoder.loads doc with
  | Decoder.Loaded v => mret v
  | Decoder.DecodeError m pos =>
      raise_ (Exn JSONDecodeError (Decoder.errmsg m doc pos))
  | Decoder.NotModelled => fun s => (Outside FloatLiteral, s)
  | Decoder.NoFuel => fun s => (Outside Fuel, s)
  end.

Definition response_json (r : response) : M json := json_loads (text r).

(** A subscript: [v["name"]] or [v[i]]. *)
Inductive subscript := Key (k : str) | Index (i : Z).

Definition quoted (s : str) : str := 39 :: s ++ [39].

Definition not_subscriptable (v : json) : exn :=
  Exn TypeError (quoted (type_name v) ++ lit " object is not subscriptable").

(** [seq[i]] on a sequence of length [len]: the position read, if any. *)
Definition resolve_index (len : nat) (i : Z) : option nat :=
  let n := Z.of_nat len in
  if (0 <=? i)%Z && (i <? n)%Z then Some (Z.to_nat i)
  else if (- n <=? i)%Z && (i <? 0)%Z then Some (Z.to_nat (i + n))
  else None.

(** [v[sub]].  The dicts of the script have [str] keys only, so an integer
    is never found in one. *)
Definition getitem (v : json) (sub : subscript) : M json :=
  match v, sub with
  | JObj d, Key k =>
      match dict_get d k with
      | Some x => mret x
      | None => raise_ (Exn KeyError (quoted k))
      end
  | JObj _, Index i => raise_ (Exn KeyError (repr_Z i))
  | JArr l, Index i =>
      match resolve_index (length l) i ≫= (fun n => l !! n) with
      | Some x => mret x
      | None => raise_ (Exn IndexError (lit "list index out of range"))
      end
  | JArr _, Key _ =>
      raise_ (Exn TypeError
                (lit "list indices must be integers or slices, not str"))
  | JStr t, Index i =>
      match resolve_index (length t) i ≫= (fun n => t !! n) with
      | Some c => mret (JStr [c])
      | None => raise_ (Exn IndexError (lit "string index out of range"))
      end
  | JStr _, Key _ =>
      raise_ (Exn TypeError (lit "string indices must be integers, not 'str'"))
  | _, _ => raise_ (not_subscriptable v)
  end.

Definition no_attribute (v : json) (name : str) : exn :=
  Exn AttributeError
      (quoted (type_name v) ++ lit " object has no attribute " ++ quoted name).

(** The receiver of a [str] method such as [.strip()]. *)
Definition as_str (method : str) (v : json) : M str :=
  match v with
  | JStr t => mret t
  | _ => raise_ (no_attribute v method)
  end.

(** [v.get(k, default)] *)
Definition py_get (v : json) (k : str) (default : json) : M json :=
  match v with
  | JObj d => mret (from_option id default (dict_get d k))
  | _ => raise_ (no_attribute v (lit "get"))
  end.

(** [len(v)] *)
Definition py_len (v : json) : M Z :=
  match v with
  | JStr t => mret (Z.of_nat (length t))
  | JArr l => mret (Z.of_nat (length l))
  | JObj d => mret (Z.of_nat (length d))
  | _ => raise_ (Exn TypeError (lit "object of type " ++ quoted (type_name v)
                                  ++ lit " has no len()"))
  end.

(** *** Writing a text file encoded in UTF-8 *)

Definition unencodable (c : char) : bool :=
  negb ((c <? 0x110000) && negb (Utf8.is_surrogate c)).

Fixpoint run_length (s : str) : nat :=
  match s with
  | c :: r => if unencodable c then S (run_length r) else O
  | [] => O
  end.

(** The first run of characters of [s] that UTF-8 cannot encode: its first
    character, its position, its length. *)
Fixpoint first_bad (s : str) (pos : nat) : option (char * nat * nat) :=
  match s with
  | c :: r =>
      if unencodable c then Some (c, pos, S (run_length r))
      else first_bad r (S pos)
  | [] => None
  end.

Definition hex4_lower (c : N) : str :=
  [Encoder.hex_char ((c / 4096) mod 16); Encoder.hex_char ((c / 256) mod 16);
   Encoder.hex_char ((c / 16) mod 16); Encoder.hex_char (c mod 16)].

(** The [UnicodeEncodeError] raised by [f.write(chunk)]. *)
Definition encode_error (chunk : str) : exn :=
  Exn UnicodeEncodeError
    (match first_bad chunk 0 with
     | Some (c, pos, 1%nat) =>
         lit "'utf-8' codec can't encode character '\u" ++ hex4_lower c
           ++ lit "' in position " ++ repr_N (N.of_nat pos)
           ++ lit ": surrogates not allowed"
     | Some (_, pos, n) =>
         lit "'utf-8' codec can't encode characters in position "
           ++ repr_N (N.of_nat pos) ++ [45] ++ repr_N (N.of_nat (pos + n - 1))
           ++ lit ": surrogates not allowed"
     | None => []
     end).

(** [for chunk in chunks: f.write(chunk)]: the bytes that reach the file,
    and the error that stopped the loop, if any. *)
Fixpoint write_chunks (chunks : list str) (buf : string) : string * option exn :=
  match chunks with
  | [] => (buf, None)
  | ch :: rest =>
      match Utf8.encode ch with
      | Some b => write_chunks rest (buf ++ b)%string
      | None => (buf, Some (encode_error ch))
      end
  end.

(** [with open(path, "w", encoding="utf-8") as f:
       json.dump(obj, f, ensure_ascii=False, indent=2)]
    Opening truncates the file; closing flushes what was written, also when
    the block is left by an exception. *)
Definition dump_to_file (path : str) (obj : json) : M unit := fun s =>
  let (bytes, err) := write_chunks (Encoder.iterencode 0 obj) EmptyString in
  let s' := {| posted := posted s; printed := printed s;
               files := <[path := bytes]> (files s) |} in
  match err with
  | None => (Return tt, s')
  | Some e => (Raise e, s')
  end.

(** *** [call_ai] *)

Definition gemini_url (key : str) : str :=
  lit "https://generativelanguage.googleapis.com/v1beta/models/gemini-1.5-flash-latest:generateContent?key="
    ++ key.

Definition openai_url : str := lit "https://api.openai.com/v1/chat/completions".

Definition gemini_request (key prompt : str) : request := {|
  url := gemini_url key;
  headers := [];
  payload :=
    JObj [(lit "contents",
           JArr [JObj [(lit "parts", JArr [JObj [(lit "text", JStr prompt)]])]]);
          (lit "generationConfig",
           JObj [(lit "response_mime_type", JStr (lit "application/json"))])]
|}.

Definition openai_request (key prompt : str) : request := {|
  url := openai_url;
  headers := [(lit "Authorization", lit "Bearer " ++ key)];
  payload :=
    JObj [(lit "model", JStr (lit "gpt-4o-mini"));
          (lit "messages",
           JArr [JObj [(lit "role", JStr (lit "user"));
                       (lit "content", JStr prompt)]]);
          (lit "response_format", JObj [(lit "type", JStr (lit "json_object"))])]
|}.

Definition no_key_error : exn :=
  Exn ValueError (lit "API 키가 설정되지 않았습니다. GitHub Secrets를 확인하세요.").

Definition call_ai (w : world) (prompt : str) : M json :=
  let openai_key := os_getenv w (OPENAI_API_KEY_SECRET CONFIG) in
  let gemini_key := os_getenv w (GEMINI_API_KEY_SECRET CONFIG) in
  if key_truthy gemini_key then
    print (lit "Gemini API를 사용하여 키워드를 생성합니다.") ;;
    response ← requests_post w (gemini_request (default [] gemini_key) prompt);
    raise_for_status response ;;
    json_response ← response_json response;
    v ← getitem json_response (Key (lit "candidates"));
    v ← getitem v (Index 0);
    v ← getitem v (Key (lit "content"));
    v ← getitem v (Key (lit "parts"));
    v ← getitem v (Index 0);
    getitem v (Key (lit "text"))
  else if key_truthy openai_key then
    print (lit "OpenAI API를 사용하여 키워드를 생성합니다.") ;;
    response ← requests_post w (openai_request (default [] openai_key) prompt);
    raise_for_status response ;;
    json_response ← response_json response;
    v ← getitem json_response (Key (lit "choices"));
    v ← getitem v (Index 0);
    v ← getitem v (Key (lit "message"));
    getitem v (Key (lit "content"))
  else raise_ no_key_error.

(** *** [main] *)

(** [", ".join(l)] *)
Fixpoint join (sep : str) (l : list str) : str :=
  match l with
  | [] => []
  | [x] => x
  | x :: r => x ++ sep ++ join sep r
  end.

Definition prompt_of (today : str) : str :=
  lit "
        " ++ today
  ++ lit " 기준, 대한민국 최신 트렌드를 종합적으로 반영하여 블로그 글감으로 활용할 '롱테일 키워드'를 " ++ repr_Z (KEYWORD_COUNT CONFIG)
  ++ lit "개 생성해줘.

        다음 씨앗 키워드들을 참고하되, 여기에 없는 완전히 새로운 분야의 키워드도 적극적으로 포함시켜줘.
        씨앗 키워드: " ++ join (lit ", ") (SEED_KEYWORDS CONFIG)
  ++ lit "

        [규칙]
        - IT, 건강, 경제, 여행, 문화, 라이프스타일 등 다양한 주제를 포함해야 해.
        - 각 키워드는 '2025년 다이어리 추천', '겨울철 실내 데이트 코스' 처럼 구체적인 검색어 형태여야 해.
        - 결과는 반드시 " ++ lit "{ 'keywords': ['키워드1', '키워드2', ...] }"
  ++ lit " 형식의 JSON 객체로만 응답해야 해. 다른 설명은 절대 추가하지 마.
    ".

(** The marker of a Markdown code fence tagged as JSON. *)
Definition fence : str := lit "```json".

(** Lines 80-81: the text handed to [json.loads]. *)
Definition normalize (ai_response_text : str) : str :=
  if startswith (strip ai_response_text) fence
  then strip (py_slice (strip ai_response_text) 7 (-3))
  else ai_response_text.

Definition no_keywords_error : exn :=
  Exn ValueError (lit "AI가 유효한 키워드를 생성하지 못했습니다.").

(** The object written to the output file for the value [keywords]. *)
Definition result_object (keywords : json) : json :=
  JObj [(lit "keywords", keywords)].

(** The one-element list written when the run fails with [e]. *)
Definition error_keywords (e : exn) : json :=
  JArr [JStr (lit "키워드 생성 중 오류 발생: " ++ exn_str e)].

(** Lines 77-78: the request. *)
Definition ask (w : world) (prompt : str) : M json :=
  print (lit "AI에게 " ++ repr_Z (KEYWORD_COUNT CONFIG)
           ++ lit "개의 트렌드 키워드 생성을 요청합니다...") ;;
  call_ai w prompt.

(** Lines 83-84: the value of the field [keywords] of the parsed text. *)
Definition extract (doc : str) : M json :=
  result ← json_loads doc;
  py_get result (lit "keywords") (JArr []).

(** Lines 86-92: the check, the output file, the closing line. *)
Definition save (keywords : json) : M unit :=
  (if truthy keywords then mret tt else raise_ no_keywords_error) ;;
  dump_to_file (OUTPUT_FILENAME CONFIG) (result_object keywords) ;;
  n ← py_len keywords;
  print (lit "✅ 성공: " ++ repr_Z n ++ lit "개의 키워드를 '"
           ++ OUTPUT_FILENAME CONFIG ++ lit "' 파일에 저장했습니다.").

(** Lines 80-92: from the answer to the output file. *)
Definition store (ai_response_text : json) : M unit :=
  ai_response_text ← as_str (lit "strip") ai_response_text;
  keywords ← extract (normalize ai_response_text);
  save keywords.

(** The body of the [try] block. *)
Definition main_body (w : world) (prompt : str) : M unit :=
  ask w prompt ≫= store.

(** The [except Exception as e] block. *)
Definition main_handler (e : exn) : M unit :=
  print (lit "❌ 오류가 발생했습니다: " ++ exn_str e) ;;
  dump_to_file (OUTPUT_FILENAME CONFIG) (result_object (error_keywords e)) ;;
  raise_ e.

Definition main (w : world) : M unit :=
  let prompt := prompt_of (today w) in
  try_except (main_body w prompt) main_handler.

(** *** The entry point (lines 100-104) *)

(** [load_dotenv()], on the variables the [.env] file defines (the file
    already read and parsed; the empty map when there is none): each one is
    added to the environment unless the environment has a variable of that
    name, which then keeps its value. *)
Definition load_dotenv (dotenv : gmap (list N) (list N)) (w : world) : world :=
  {| environ := environ w ∪ dotenv; today := today w;
     transport := transport w |}.

(** The script run as a program. *)
Definition script (dotenv : gmap (list N) (list N)) (w : world) : M unit :=
  print (lit "로컬 테스트 모드로 실행합니다. .env 파일에서 API 키를 로드합니다.") ;;
  main (load_dotenv dotenv w).

(** * Notions used to state the properties *)

(** [m] leaves the component [f] of the state as it found it. *)
Definition keeps {A X} (f : state -> X) (m : M A) : Prop :=
  forall s, f (m s).2 = f s.

(** [m] leaves the whole state as it found it. *)
Definition pure {A} (m : M A) : Prop := forall s, (m s).2 = s.

(** The request [call_ai] sends, if any: a function of the two keys. *)
Definition selected (w : world) (prompt : str) : list request :=
  let openai_key := os_getenv w (OPENAI_API_KEY_SECRET CONFIG) in
  let gemini_key := os_getenv w (GEMINI_API_KEY_SECRET CONFIG) in
  if key_truthy gemini_key then [gemini_request (default [] gemini_key) prompt]
  else if key_truthy openai_key
       then [openai_request (default [] openai_key) prompt]
       else [].

(** The layout of the output file: [{"keywords": value}] with an
    indentation of two spaces. *)
Definition layout_open : str :=
  [123; 10; 32; 32] ++ Encoder.encode_basestring (lit "keywords") ++ [58; 32].

Definition layout_close : str := [10; 125].

(** An item of a list at nesting depth one that is not the first: a comma
    ends the line before, the item starts a new line, four spaces in. *)
Definition next_item (y : str) : str := [44; 10; 32; 32; 32; 32] ++ y.

(** A list at nesting depth one: one item per line, four spaces in. *)
Definition layout_list (items : list str) : str :=
  match items with
  | [] => [91; 93]
  | x :: r =>
      [91; 10; 32; 32; 32; 32] ++ x ++ flat_map next_item r ++ [10; 32; 32; 93]
  end.

(** The text of the output file for a list of keyword strings. *)
Definition keywords_text (ks : list str) : str :=
  layout_open ++ layout_list (map Encoder.encode_basestring ks) ++ layout_close.

(** The state after [print line]. *)
Definition printing (line : str) (s : state) : state :=
  {| posted := posted s; printed := printed s ++ [line]; files := files s |}.

(** The state after the file [path] was replaced by [bytes]. *)
Definition writing (path : str) (bytes : string) (s : state) : state :=
  {| posted := posted s; printed := printed s;
     files := <[path := bytes]> (files s) |}.

(** The line the handler prints for the exception [e]. *)
Definition error_line (e : exn) : str :=
  lit "❌ 오류가 발생했습니다: " ++ exn_str e.

(** The first line the script prints. *)
Definition first_line : str :=
  lit "AI에게 " ++ repr_Z (KEYWORD_COUNT CONFIG)
    ++ lit "개의 트렌드 키워드 생성을 요청합니다...".

(** The variable [name] is set in the environment, to whatever value. *)
Definition is_set (w : world) (name : str) : Prop := os_getenv w name <> None.

(** The variable [name] is not set, or set to the empty string. *)
Definition unusable (w : world) (name : str) : Prop :=
  os_getenv w name = None \/ os_getenv w name = Some [].

(** The world [w] with the variable [name] removed from the environment. *)
Definition unset (name : str) (w : world) : world :=
  {| environ := delete name (environ w); today := today w;
     transport := transport w |}.

(** The selection rule with "set" read as "present in the environment":
    the Gemini service is called whenever its variable is set, the OpenAI
    service when only its variable is set, none when neither is. *)
Definition selection_by_presence (w : world) : Prop :=
  let p := prompt_of (today w) in
  forall s,
    (is_set w (GEMINI_API_KEY_SECRET CONFIG) ->
       exists k, posted (main w s).2 = posted s ++ [gemini_request k p]) /\
    (~ is_set w (GEMINI_API_KEY_SECRET CONFIG) ->
     is_set w (OPENAI_API_KEY_SECRET CONFIG) ->
       exists k, posted (main w s).2 = posted s ++ [openai_request k p]) /\
    (~ is_set w (GEMINI_API_KEY_SECRET CONFIG) ->
     ~ is_set w (OPENAI_API_KEY_SECRET CONFIG) ->
       posted (main w s).2 = posted s).



(** *** Sample inputs *)

(** Sample texts are written with an apostrophe where the text has a
    double quote. *)
Definition dq (b : string) : str :=
  map (fun c => if c =? 39 then 34 else c) (lit b).

Definition s0 : state := {| posted := []; printed := []; files := ∅ |}.

(** A transport that answers every request with status [status] and the
    text [body]. *)
Definition answering (status : Z) (body : str) (r : request) : exn + response :=
  inr {| status_code := status; reason := lit "OK"; response_url := url r;
         text := body |}.

Definition env_of (gemini openai : option str) : gmap (list N) (list N) :=
  let e := match gemini with
           | Some k => <[GEMINI_API_KEY_SECRET CONFIG := k]> ∅
           | None => ∅
           end in
  match openai with
  | Some k => <[OPENAI_API_KEY_SECRET CONFIG := k]> e
  | None => e
  end.

(** The answer of the OpenAI service whose generated text is [content]. *)
Definition openai_body (content : json) : str :=
  Encoder.dumps
    (JObj [(lit "choices",
            JArr [JObj [(lit "message", JObj [(lit "content", content)])]])]).

(** The answer of the Gemini service whose generated text is [content]. *)
Definition gemini_body (content : json) : str :=
  Encoder.dumps
    (JObj [(lit "candidates",
            JArr [JObj [(lit "content",
                         JObj [(lit "parts",
                                JArr [JObj [(lit "text", content)]])])]])]).

Definition sample_day : str := lit "2025년 01월 02일".

(** No key at all. *)
Definition w_no_key : world :=
  {| environ := env_of None None; today := sample_day;
     transport := answering 200 [] |}.

(** The Gemini variable set to the empty string, the OpenAI one to a key. *)
Definition w_gemini_empty : world :=
  {| environ := env_of (Some []) (Some (lit "sk-test")); today := sample_day;
     transport := answering 200 (openai_body (JStr (dq "{'keywords':['x']}"))) |}.

(** Both variables set to the empty string. *)
Definition w_both_empty : world :=
  {| environ := env_of (Some []) (Some []); today := sample_day;
     transport := answering 200 [] |}.

(** Only the OpenAI key, and a service that answers with [content]. *)
Definition w_openai (content : json) : world :=
  {| environ := env_of None (Some (lit "sk-test")); today := sample_day;
     transport := answering 200 (openai_body content) |}.

(** Both keys, and a Gemini service that answers with [content]. *)
Definition w_both (content : json) : world :=
  {| environ := env_of (Some (lit "g-test")) (Some (lit "sk-test"));
     today := sample_day;
     transport := answering 200 (gemini_body content) |}.


(** Lines 80-81 read as a fixed-width cut and nothing more: when the trimmed
    text starts with the fence, exactly its first seven and its last three
    characters are removed. *)
Definition cut_only (ai_response_text : str) : str :=
  if startswith (strip ai_response_text) fence
  then py_slice (strip ai_response_text) 7 (-3)
  else ai_response_text.

(** A character with which a JSON value can start, as the scanner sees it:
    a quote, a brace, a bracket, the first letter of [null], [true], [false],
    [NaN], [Infinity], a minus sign or a digit. *)
Definition starts_value (c : char) : bool :=
  (c =? 34) || (c =? 123) || (c =? 91) || (c =? 110) || (c =? 116)
  || (c =? 102) || (c =? 45) || Decoder.is_digit c || (c =? 78) || (c =? 73).

(** The keywords object with the one keyword [x]. *)
Definition one_keyword : str := dq "{'keywords':['x']}".

(** The object inside a fence tagged [json], each on a line of its own. *)
Definition fenced_sample : str :=
  lit "```json" ++ [10] ++ one_keyword ++ [10] ++ lit "```".

(** The same with a form feed after the opening fence and no line feeds. *)
Definition fenced_form_feed : str :=
  lit "```json" ++ [12] ++ one_keyword ++ lit "```".

(** The object inside a plain fence, without the [json] tag. *)
Definition plain_fence_sample : str :=
  lit "```" ++ [10] ++ one_keyword ++ [10] ++ lit "```".

(** The closing line of a run that stored [n] keywords. *)
Definition success_line (n : Z) : str :=
  lit "✅ 성공: " ++ repr_Z n ++ lit "개의 키워드를 '"
    ++ OUTPUT_FILENAME CONFIG ++ lit "' 파일에 저장했습니다.".

(** The value of the field [keywords] of a parsed object, the empty list
    when the field is absent. *)
Definition keywords_of (d : list (str * json)) : json :=
  from_option id (JArr []) (dict_get d (lit "keywords")).

(** A value [len] accepts: a string, a list or a dict. *)
Definition sized (v : json) : bool :=
  match v with
  | JStr _ | JArr _ | JObj _ => true
  | _ => false
  end.




(** What a reader of the output file finds: the bytes decoded as UTF-8,
    parsed as JSON, and the field [keywords] of the object. *)
Definition read_back (s : state) : option json :=
  bytes ← files s !! OUTPUT_FILENAME CONFIG;
  doc ← Utf8.decode bytes;
  match Decoder.loads doc with
  | Decoder.Loaded (JObj d) => dict_get d (lit "keywords")
  | _ => None
  end.

(** The answer of the end-to-end scenario: two keywords in Korean. *)
Definition scenario_answer : str :=
  dq "{'keywords':['2025 다이어리 추천','겨울 데이트 코스']}".


(** A result of scanning the text [s] that is an answer (not a lack of
    fuel) and, when a value was read, left less text than it was given. *)
Definition settled {A} (s : str) (x : Decoder.scan A) : Prop :=
  match x with
  | Decoder.Scanned _ r => (length r < length s)%nat
  | Decoder.Failed _ _ | Decoder.Unmodelled => True
  | Decoder.OutOfFuel => False
  end.

(** [m] never stops for lack of fuel. *)
Definition fueled {A} (m : M A) : Prop := forall s, (m s).1 <> Outside Fuel.

(** *** Notions used for the further properties *)

(** The lines [call_ai] prints before it calls a service. *)
Definition gemini_line : str := lit "Gemini API를 사용하여 키워드를 생성합니다.".
Definition openai_line : str := lit "OpenAI API를 사용하여 키워드를 생성합니다.".

(** The state after [line] was printed and [r] was posted. *)
Definition posting (r : request) (line : str) (s : state) : state :=
  {| posted := posted s ++ [r]; printed := printed s ++ [line];
     files := files s |}.


(** What [call_ai] does once the service has answered with [resp]: the
    status check, the body parsed, the path into the envelope. *)
Definition read_gemini (resp : response) : M json :=
  raise_for_status resp ;;
  json_response ← response_json resp;
  v ← getitem json_response (Key (lit "candidates"));
  v ← getitem v (Index 0);
  v ← getitem v (Key (lit "content"));
  v ← getitem v (Key (lit "parts"));
  v ← getitem v (Index 0);
  getitem v (Key (lit "text")).

Definition read_openai (resp : response) : M json :=
  raise_for_status resp ;;
  json_response ← response_json resp;
  v ← getitem json_response (Key (lit "choices"));
  v ← getitem v (Index 0);
  v ← getitem v (Key (lit "message"));
  getitem v (Key (lit "content")).

(** The prefix of the string stored when a run fails. *)
Definition error_prefix : str := lit "키워드 생성 중 오류 발생: ".

(** A world with the given keys whose service answers every request with
    the status [status] and the text [body]. *)
Definition w_answer (gemini openai : option str) (status : Z) (body : str)
  : world :=
  {| environ := env_of gemini openai; today := sample_day;
     transport := answering status body |}.

(** A world with the given keys in which [requests.post] raises [e]. *)
Definition w_down (gemini openai : option str) (e : exn) : world :=
  {| environ := env_of gemini openai; today := sample_day;
     transport := fun _ => inl e |}.

Definition connection_refused : exn :=
  Exn RequestException (lit "Connection refused").

(** The message of the [HTTPError] that [raise_for_status] raises for the
    response [r]. *)
Definition http_error_of (r : response) : exn :=
  Exn HTTPError
    (repr_Z (status_code r)
       ++ (if (status_code r <? 500)%Z then lit " Client Error: "
           else lit " Server Error: ")
       ++ reason r ++ lit " for url: " ++ response_url r).

(** The world [w] with one more variable in its environment. *)
Definition with_variable (name value : str) (w : world) : world :=
  {| environ := <[name := value]> (environ w); today := today w;
     transport := transport w |}.

(** The line the script prints when it is run as a program. *)
Definition startup_line : str :=
  lit "로컬 테스트 모드로 실행합니다. .env 파일에서 API 키를 로드합니다.".

(** Two states with the same lines printed and the same files. *)
Definition agree (s s' : state) : Prop :=
  printed s = printed s' /\ files s = files s'.

(** [m] does not look at the requests posted so far: from two states that
    agree it ends the same way, in two states that agree. *)
Definition blind {A} (m : M A) : Prop :=
  forall s s', agree s s' -> (m s).1 = (m s').1 /\ agree (m s).2 (m s').2.

(** [m] neither reads nor changes the state: it ends the same way from
    every state, and leaves the state as it found it. *)
Definition fixed {A} (m : M A) : Prop := exists o, forall s, m s = (o, s).









(** * Properties *)

(** ** The UTF-8 codec *)

Module Utf8Facts.
Import Utf8.

Ltac nlia := zify; Z.to_euclidean_division_equations; lia.

Lemma byte_embedding (n : N) : n < 256 -> N_of_ascii (ascii_of_N n) = n.
Proof. apply N_ascii_embedding. Qed.

Lemma payload_cont (c k : N) : payload (cont c k) = (c / 64 ^ k) mod 64.
Proof.
  unfold payload, cont.
  pose proof (N.mod_lt (c / 64 ^ k) 64 ltac:(discriminate)) as H.
  revert H. generalize ((c / 64 ^ k) mod 64). intros m H.
  rewrite byte_embedding; lia.
Qed.

Lemma is_cont_cont (c k : N) : is_cont (cont c k) = true.
Proof.
  unfold is_cont, cont. cbv zeta.
  pose proof (N.mod_lt (c / 64 ^ k) 64 ltac:(discriminate)) as H.
  revert H. generalize ((c / 64 ^ k) mod 64). intros m H.
  rewrite byte_embedding by lia.
  apply andb_true_intro; split; [apply N.leb_le | apply N.ltb_lt]; lia.
Qed.

Lemma decode_ascii (n : N) (b : string) :
  n < 0x80 -> decode (String (ascii_of_N n) b) = cons n <$> decode b.
Proof.
  intros H. cbn [decode]. rewrite byte_embedding by lia.
  apply N.ltb_lt in H. now rewrite H.
Qed.

Lemma decode_two (n : N) (a1 : ascii) (b : string) :
  0xC0 <= n < 0xE0 ->
  decode (String (ascii_of_N n) (String a1 b)) =
    let c := (n - 0xC0) * 64 + payload a1 in
    if is_cont a1 && (0x80 <=? c) then cons c <$> decode b else None.
Proof.
  intros H. cbn [decode]. rewrite byte_embedding by lia.
  destruct (N.ltb_spec n 0x80); [lia|].
  destruct (N.ltb_spec n 0xC0); [lia|].
  destruct (N.ltb_spec n 0xE0); [|lia]. reflexivity.
Qed.

Lemma decode_three (n : N) (a1 a2 : ascii) (b : string) :
  0xE0 <= n < 0xF0 ->
  decode (String (ascii_of_N n) (String a1 (String a2 b))) =
    let c := (n - 0xE0) * 4096 + payload a1 * 64 + payload a2 in
    if is_cont a1 && is_cont a2 && (0x800 <=? c) && negb (is_surrogate c)
    then cons c <$> decode b else None.
Proof.
  intros H. cbn [decode]. rewrite byte_embedding by lia.
  destruct (N.ltb_spec n 0x80); [lia|].
  destruct (N.ltb_spec n 0xC0); [lia|].
  destruct (N.ltb_spec n 0xE0); [lia|].
  destruct (N.ltb_spec n 0xF0); [|lia]. reflexivity.
Qed.

Lemma decode_four (n : N) (a1 a2 a3 : ascii) (b : string) :
  0xF0 <= n < 0xF8 ->
  decode (String (ascii_of_N n) (String a1 (String a2 (String a3 b)))) =
    let c := (n - 0xF0) * 262144 + payload a1 * 4096
             + payload a2 * 64 + payload a3 in
    if is_cont a1 && is_cont a2 && is_cont a3
       && (0x10000 <=? c) && (c <? 0x110000)
    then cons c <$> decode b else None.
Proof.
  intros H. cbn [decode]. rewrite byte_embedding by lia.
  destruct (N.ltb_spec n 0x80); [lia|].
  destruct (N.ltb_spec n 0xC0); [lia|].
  destruct (N.ltb_spec n 0xE0); [lia|].
  destruct (N.ltb_spec n 0xF0); [lia|].
  destruct (N.ltb_spec n 0xF8); [|lia]. reflexivity.
Qed.

(** Decoding the bytes of one character gives the character back. *)
Lemma decode_encode_char (c : char) (l : list ascii) (b : string) :
  encode_char c = Some l -> decode (prepend l b) = cons c <$> decode b.
Proof.
  unfold encode_char.
  destruct (N.ltb_spec c 0x80).
  { intros [= <-]. cbn [prepend]. now apply decode_ascii. }
  destruct (N.ltb_spec c 0x800).
  { intros [= <-]. cbn [prepend].
    rewrite decode_two by nlia. cbv zeta.
    rewrite is_cont_cont, payload_cont.
    replace ((192 + c / 64 - 192) * 64 + (c / 64 ^ 0) mod 64) with c
      by (change (64 ^ 0) with 1; nlia).
    destruct (N.leb_spec 0x80 c); [reflexivity | lia]. }
  destruct (N.ltb_spec c 0x10000).
  { destruct (is_surrogate c) eqn:Hs; [discriminate|].
    intros [= <-]. cbn [prepend].
    rewrite decode_three by nlia. cbv zeta.
    rewrite !is_cont_cont, !payload_cont.
    replace ((224 + c / 4096 - 224) * 4096 + (c / 64 ^ 1) mod 64 * 64
             + (c / 64 ^ 0) mod 64) with c
      by (change (64 ^ 0) with 1; change (64 ^ 1) with 64; nlia).
    rewrite Hs. destruct (N.leb_spec 0x800 c); [reflexivity | lia]. }
  destruct (N.ltb_spec c 0x110000); [|discriminate].
  intros [= <-]. cbn [prepend].
  rewrite decode_four by nlia. cbv zeta.
  rewrite !is_cont_cont, !payload_cont.
  replace ((240 + c / 262144 - 240) * 262144 + (c / 64 ^ 2) mod 64 * 4096
           + (c / 64 ^ 1) mod 64 * 64 + (c / 64 ^ 0) mod 64) with c
    by (change (64 ^ 0) with 1; change (64 ^ 1) with 64;
        change (64 ^ 2) with 4096; nlia).
  destruct (N.leb_spec 0x10000 c); [|lia].
  destruct (N.ltb_spec c 0x110000); [reflexivity | lia].
Qed.

(** Reading back what was written: [bytes.decode] undoes [str.encode]. *)
Lemma decode_encode (s : str) (b : string) :
  encode s = Some b -> decode b = Some s.
Proof.
  revert b. induction s as [|c r IH]; intros b.
  - now intros [= <-].
  - cbn [encode]. destruct (encode_char c) as [l|] eqn:Hc; [|discriminate].
    destruct (encode r) as [b'|] eqn:Hr; [|discriminate].
    intros [= <-]. rewrite (decode_encode_char _ _ _ Hc), (IH b' eq_refl).
    reflexivity.
Qed.

End Utf8Facts.

Module Utf8More.
Import Utf8 Utf8Facts.

Lemma append_cons (x : ascii) (a b : string) :
  (String x a ++ b)%string = String x (a ++ b)%string.
Proof. reflexivity. Qed.

Lemma append_nil_r (b : string) : (b ++ EmptyString)%string = b.
Proof.
  induction b as [|a b IH]; [reflexivity | now rewrite append_cons, IH].
Qed.

Lemma append_assoc (a b c : string) : ((a ++ b) ++ c = a ++ (b ++ c))%string.
Proof.
  induction a as [|x a IH]; [reflexivity | now rewrite !append_cons, IH].
Qed.

Lemma prepend_append (l : list ascii) (a b : string) :
  prepend l (a ++ b)%string = (prepend l a ++ b)%string.
Proof.
  induction l as [|x l IH]; cbn [prepend];
    [reflexivity | now rewrite append_cons, IH].
Qed.

Lemma encode_app (s t : str) :
  encode (s ++ t) =
    match encode s, encode t with
    | Some a, Some b => Some (a ++ b)%string
    | _, _ => None
    end.
Proof.
  induction s as [|c r IH]; cbn [app encode].
  - destruct (encode t); reflexivity.
  - rewrite IH. destruct (encode_char c), (encode r), (encode t);
      try reflexivity.
    now rewrite prepend_append.
Qed.

Lemma encode_char_Some (c : char) :
  (c <? 0x110000) && negb (is_surrogate c) = true -> is_Some (encode_char c).
Proof.
  intros [H1 H2]%andb_prop. unfold encode_char.
  rewrite H1. apply negb_true_iff in H2. rewrite H2.
  repeat case_match; eauto.
Qed.

Lemma encodable_encode (s : str) : encodable s = true -> is_Some (encode s).
Proof.
  induction s as [|c r IH]; cbn [encodable forallb encode]; [eauto|].
  intros [Hc Hr]%andb_prop.
  destruct (encode_char_Some c Hc) as [l ->].
  destruct (IH Hr) as [b ->]. eauto.
Qed.

Lemma encodable_app (s t : str) :
  encodable (s ++ t) = encodable s && encodable t.
Proof. unfold encodable. apply forallb_app. Qed.

Lemma encodable_digits (d : Decimal.uint) : encodable (uint_digits d) = true.
Proof. induction d; cbn [uint_digits encodable forallb]; auto. Qed.

Lemma encodable_repr_N (n : N) : encodable (repr_N n) = true.
Proof. apply encodable_digits. Qed.

Lemma encodable_repr_Z (z : Z) : encodable (repr_Z z) = true.
Proof.
  unfold repr_Z. destruct (z <? 0)%Z; [|apply encodable_repr_N].
  change (encodable ([45] ++ repr_N (Z.to_N (- z))) = true).
  rewrite encodable_app, encodable_repr_N. reflexivity.
Qed.

End Utf8More.

(** ** How the operations of the script act on the state *)

Lemma bind_run {A B} (m : M A) (f : A -> M B) (s : state) :
  (m ≫= f) s =
    match m s with
    | (Return a, s') => f a s'
    | (Raise e, s') => (Raise e, s')
    | (Outside g, s') => (Outside g, s')
    end.
Proof. reflexivity. Qed.

Section Keeps.
Context {X : Type} (f : state -> X).

Lemma pure_keeps {A} (m : M A) : pure m -> keeps f m.
Proof. intros H s. now rewrite H. Qed.

Lemma keeps_ret {A} (a : A) : keeps f (mret a).
Proof. intros s. reflexivity. Qed.

Lemma keeps_raise {A} (e : exn) : keeps f (@raise_ A e).
Proof. intros s. reflexivity. Qed.

Lemma keeps_bind {A B} (m : M A) (k : A -> M B) :
  keeps f m -> (forall a, keeps f (k a)) -> keeps f (m ≫= k).
Proof.
  intros Hm Hk s. rewrite bind_run. specialize (Hm s).
  destruct (m s) as [[a|e|g] s']; cbn in *; [|assumption..].
  now rewrite Hk.
Qed.

Lemma keeps_try {A} (m : M A) (h : exn -> M A) :
  keeps f m -> (forall e, keeps f (h e)) -> keeps f (try_except m h).
Proof.
  intros Hm Hh s. unfold try_except. specialize (Hm s).
  destruct (m s) as [[a|e|g] s']; cbn in *; [assumption| |assumption].
  now rewrite Hh.
Qed.
End Keeps.

Lemma pure_ret {A} (a : A) : pure (mret a).
Proof. intros s. reflexivity. Qed.

Lemma pure_raise {A} (e : exn) : pure (@raise_ A e).
Proof. intros s. reflexivity. Qed.

Lemma pure_raise_for_status (r : response) : pure (raise_for_status r).
Proof. intros s. unfold raise_for_status. repeat case_match; reflexivity. Qed.

Lemma pure_json_loads (doc : str) : pure (json_loads doc).
Proof. intros s. unfold json_loads. case_match; reflexivity. Qed.

Lemma pure_response_json (r : response) : pure (response_json r).
Proof. apply pure_json_loads. Qed.

Lemma pure_getitem (v : json) (sub : subscript) : pure (getitem v sub).
Proof. intros s. unfold getitem. repeat case_match; reflexivity. Qed.

Lemma pure_as_str (m : str) (v : json) : pure (as_str m v).
Proof. intros s. destruct v; reflexivity. Qed.

Lemma pure_py_get (v : json) (k : str) (d : json) : pure (py_get v k d).
Proof. intros s. destruct v; reflexivity. Qed.

Lemma pure_py_len (v : json) : pure (py_len v).
Proof. intros s. destruct v; reflexivity. Qed.

Lemma keeps_posted_print (l : str) : keeps posted (print l).
Proof. intros s. reflexivity. Qed.

Lemma keeps_files_print (l : str) : keeps files (print l).
Proof. intros s. reflexivity. Qed.

Lemma keeps_posted_dump (p : str) (v : json) : keeps posted (dump_to_file p v).
Proof.
  intros s. unfold dump_to_file. destruct (write_chunks _ _) as [b [e|]];
    reflexivity.
Qed.

Lemma keeps_files_post (w : world) (r : request) : keeps files (requests_post w r).
Proof. intros s. unfold requests_post. destruct (transport w r); reflexivity. Qed.

Create HintDb keeps.
#[export] Hint Resolve keeps_ret keeps_raise keeps_posted_print keeps_files_print
  keeps_posted_dump keeps_files_post : keeps.
#[export] Hint Resolve pure_ret pure_raise pure_raise_for_status pure_json_loads
  pure_response_json   pure_getitem pure_as_str pure_py_get pure_py_len : keeps.

(** Breaks a sequence of operations into its steps. *)
Ltac keeps_steps :=
  repeat first
    [ apply keeps_bind; [|intros ?]
    | apply keeps_try; [|intros ?]
    | solve [auto with keeps]
    | solve [apply pure_keeps; auto with keeps]
    | match goal with |- keeps _ (if ?b then _ else _) => destruct b end
    | match goal with |- keeps _ (match ?x with _ => _ end) => destruct x end ].

Lemma keeps_posted_store (v : json) : keeps posted (store v).
Proof. unfold store, extract, save. keeps_steps. Qed.

Lemma keeps_posted_handler (e : exn) : keeps posted (main_handler e).
Proof. unfold main_handler. keeps_steps. Qed.

Lemma posted_requests_post {A} (w : world) (r : request) (k : response -> M A) :
  (forall resp, keeps posted (k resp)) ->
  forall s, posted ((requests_post w r ≫= k) s).2 = posted s ++ [r].
Proof.
  intros Hk s. rewrite bind_run. unfold requests_post.
  destruct (transport w r) as [e|resp]; [reflexivity|].
  now rewrite Hk.
Qed.

Lemma posted_call_ai (w : world) (prompt : str) (s : state) :
  posted (call_ai w prompt s).2 = posted s ++ selected w prompt.
Proof.
  unfold call_ai, selected.
  destruct (key_truthy (os_getenv w (GEMINI_API_KEY_SECRET CONFIG))).
  - rewrite bind_run. cbn [print].
    rewrite posted_requests_post; [reflexivity|]. intros resp. keeps_steps.
  - destruct (key_truthy (os_getenv w (OPENAI_API_KEY_SECRET CONFIG))).
    + rewrite bind_run. cbn [print].
      rewrite posted_requests_post; [reflexivity|]. intros resp. keeps_steps.
    + cbn. now rewrite app_nil_r.
Qed.

Lemma posted_main (w : world) (s : state) :
  posted (main w s).2 = posted s ++ selected w (prompt_of (today w)).
Proof.
  unfold main, try_except, main_body. rewrite bind_run.
  pose proof (posted_call_ai w (prompt_of (today w))
                {| posted := posted s;
                   printed := printed s ++
                     [lit "AI에게 " ++ repr_Z (KEYWORD_COUNT CONFIG)
                        ++ lit "개의 트렌드 키워드 생성을 요청합니다..."];
                   files := files s |}) as Hc.
  unfold ask. rewrite bind_run. cbn [print].
  destruct (call_ai _ _ _) as [[v|e|g] s1]; cbn [snd posted] in Hc |- *.
  - pose proof (keeps_posted_store v s1) as Hs.
    destruct (store v s1) as [[[]|e|g] s2]; cbn [snd] in Hs |- *.
    + congruence.
    + rewrite keeps_posted_handler. congruence.
    + congruence.
  - rewrite keeps_posted_handler. exact Hc.
  - exact Hc.
Qed.

(** ** Writing the output file *)

Section Writing.
Import Utf8 Utf8More Encoder.

(** Every chunk gets through exactly when the whole text can be encoded;
    the file then holds the encoding of the whole text. *)
Lemma write_chunks_encode (chunks : list str) (buf b : string) :
  encode (concat chunks) = Some b ->
  write_chunks chunks buf = ((buf ++ b)%string, None).
Proof.
  revert buf b. induction chunks as [|ch rest IH]; intros buf b.
  - intros [= <-]. cbn. now rewrite append_nil_r.
  - cbn [concat write_chunks]. rewrite encode_app.
    destruct (encode ch) as [x|]; [|discriminate].
    destruct (encode (concat rest)) as [y|] eqn:Hy; [|discriminate].
    intros [= <-]. rewrite (IH _ y eq_refl). now rewrite append_assoc.
Qed.

Lemma write_chunks_stops (chunks : list str) (buf : string) :
  encode (concat chunks) = None ->
  exists (b : string) (ch : str),
    In ch chunks /\ encode ch = None /\
    write_chunks chunks buf = (b, Some (encode_error ch)).
Proof.
  revert buf. induction chunks as [|ch rest IH]; intros buf.
  - discriminate.
  - cbn [concat write_chunks]. rewrite encode_app.
    destruct (encode ch) as [x|] eqn:Hx.
    + destruct (encode (concat rest)) as [y|] eqn:Hy; [discriminate|].
      intros _. destruct (IH (buf ++ x)%string eq_refl) as (b & c & Hin & Hc & ->).
      exists b, c. cbn. auto.
    + intros _. exists buf, ch. cbn. auto.
Qed.

(** The [with] block when the text can be encoded: the file is replaced by
    the encoded text, nothing else changes. *)
Lemma dump_to_file_written (path : str) (obj : json) (b : string) (s : state) :
  encode (dumps obj) = Some b ->
  dump_to_file path obj s =
    (Return tt, {| posted := posted s; printed := printed s;
                   files := <[path := b]> (files s) |}).
Proof.
  intros H. unfold dump_to_file.
  now rewrite (write_chunks_encode _ EmptyString b H).
Qed.

(** The [with] block when some chunk cannot be encoded. *)
Lemma dump_to_file_stops (path : str) (obj : json) (s : state) :
  encode (dumps obj) = None ->
  exists (b : string) (ch : str),
    dump_to_file path obj s =
      (Raise (encode_error ch),
       {| posted := posted s; printed := printed s;
          files := <[path := b]> (files s) |}).
Proof.
  intros H. unfold dump_to_file.
  destruct (write_chunks_stops _ EmptyString H) as (b & ch & _ & _ & ->).
  eauto.
Qed.

Lemma scalar_below_128 (c : char) :
  c < 128 -> (c <? 0x110000) && negb (is_surrogate c) = true.
Proof.
  intros H. unfold is_surrogate.
  destruct (N.ltb_spec c 0x110000); [|lia].
  destruct (N.leb_spec 0xD800 c); [lia | reflexivity].
Qed.

Lemma hex_char_below_128 (d : N) : d < 16 -> hex_char d < 128.
Proof. intros H. unfold hex_char. destruct (d <? 10); lia. Qed.

Lemma encodable_escape_char (c : char) :
  (c <? 0x110000) && negb (is_surrogate c) = true ->
  encodable (escape_char c) = true.
Proof.
  intros Hc. unfold escape_char.
  do 7 (match goal with |- context [if ?b then _ else _] =>
          destruct b; [reflexivity|] end).
  destruct (N.ltb_spec c 0x20) as [Hlt|Hge].
  - cbn [encodable forallb].
    rewrite !scalar_below_128; try reflexivity; try lia;
      apply hex_char_below_128; Utf8Facts.nlia.
  - cbn [encodable forallb]. now rewrite Hc.
Qed.

Lemma encodable_flat_map_escape (s : str) :
  encodable s = true -> encodable (flat_map escape_char s) = true.
Proof.
  induction s as [|c r IH]; [reflexivity|].
  cbn [encodable forallb flat_map]. intros [Hc Hr]%andb_prop.
  rewrite encodable_app, encodable_escape_char by assumption.
  now apply IH.
Qed.

Lemma encodable_basestring (s : str) :
  encodable s = true -> encodable (encode_basestring s) = true.
Proof.
  intros H. unfold encode_basestring.
  change (encodable ([34] ++ flat_map escape_char s ++ [34]) = true).
  now rewrite !encodable_app, encodable_flat_map_escape.
Qed.

End Writing.

(** ** The text of the output file *)

Section Layout.
Import Utf8 Utf8More Encoder.

Lemma dumps_result_object (v : json) :
  dumps (result_object v) =
    layout_open ++ concat (iterencode 1 v) ++ layout_close.
Proof.
  unfold dumps, result_object, layout_open, layout_close.
  cbn [iterencode]. cbn [concat]. rewrite concat_app. cbn [flat_map concat app].
  rewrite <- !app_assoc. reflexivity.
Qed.

Lemma iterencode_more_strings (r : list str) :
  concat (flat_map
            (fun y : json =>
               if is_container y
               then (44 :: newline_indent 2) :: iterencode 2 y
               else [(44 :: newline_indent 2) ++ atom y])
            (map JStr r)) =
    flat_map next_item (map encode_basestring r).
Proof.
  induction r as [|x r IH]; [reflexivity|].
  cbn [map flat_map is_container atom]. rewrite concat_app, IH.
  cbn [concat]. now rewrite app_nil_r.
Qed.

Lemma iterencode_strings (ks : list str) :
  concat (iterencode 1 (JArr (map JStr ks))) =
    layout_list (map encode_basestring ks).
Proof.
  destruct ks as [|k r]; [reflexivity|].
  cbn [map iterencode is_container atom layout_list].
  rewrite !concat_app, iterencode_more_strings.
  cbn [concat]. rewrite !app_nil_r, <- !app_assoc. reflexivity.
Qed.

(** The text written for a list of keyword strings. *)
Lemma dumps_keywords (ks : list str) :
  dumps (result_object (JArr (map JStr ks))) = keywords_text ks.
Proof. now rewrite dumps_result_object, iterencode_strings. Qed.

Lemma dumps_error_keywords (e : exn) :
  dumps (result_object (error_keywords e)) =
    keywords_text [lit "키워드 생성 중 오류 발생: " ++ exn_str e].
Proof. apply (dumps_keywords [_]). Qed.

Lemma encodable_layout_list (items : list str) :
  forallb encodable items = true -> encodable (layout_list items) = true.
Proof.
  destruct items as [|x r]; [reflexivity|].
  cbn [forallb layout_list]. intros [Hx Hr]%andb_prop.
  rewrite !encodable_app, Hx. cbn [andb].
  replace (encodable (flat_map _ r)) with true; [reflexivity|].
  symmetry. induction r as [|y r IH]; [reflexivity|].
  cbn [forallb flat_map] in *. apply andb_prop in Hr as [Hy Hr].
  unfold next_item at 1.
  rewrite !encodable_app, Hy, IH by assumption. reflexivity.
Qed.

Lemma encodable_keywords_text (ks : list str) :
  forallb encodable ks = true -> encodable (keywords_text ks) = true.
Proof.
  intros H. unfold keywords_text. rewrite !encodable_app.
  rewrite encodable_layout_list; [reflexivity|].
  rewrite forallb_forall in *. intros x (k & <- & Hk)%in_map_iff.
  apply encodable_basestring. now apply H.
Qed.

(** The handler, when the message of the exception can be encoded: the
    line is printed, the file is replaced, the exception is raised again. *)
Lemma main_handler_run (e : exn) (s : state) :
  encodable (exn_str e) = true ->
  exists b : string,
    encode (dumps (result_object (error_keywords e))) = Some b /\
    main_handler e s =
      (Raise e, writing (OUTPUT_FILENAME CONFIG) b (printing (error_line e) s)).
Proof.
  intros He.
  destruct (encodable_encode (dumps (result_object (error_keywords e))))
    as [b Hb].
  { rewrite dumps_error_keywords. apply encodable_keywords_text.
    cbn [forallb]. rewrite encodable_app, He. reflexivity. }
  exists b. split; [assumption|].
  unfold main_handler. rewrite bind_run. cbn [print].
  rewrite bind_run, (dump_to_file_written _ _ b) by assumption.
  reflexivity.
Qed.

End Layout.

(** ** The run as a whole *)

Lemma ask_run (w : world) (prompt : str) (s : state) :
  ask w prompt s = call_ai w prompt (printing first_line s).
Proof. reflexivity. Qed.

(** Whatever the [try] block raises is handled the same way: provided its
    message can be encoded, the file is replaced by the error entry and the
    exception is raised again. *)
Lemma main_reraises (w : world) (s s1 : state) (e : exn) :
  main_body w (prompt_of (today w)) s = (Raise e, s1) ->
  Utf8.encodable (exn_str e) = true ->
  exists b : string,
    Utf8.encode (Encoder.dumps (result_object (error_keywords e))) = Some b /\
    main w s =
      (Raise e, writing (OUTPUT_FILENAME CONFIG) b (printing (error_line e) s1)).
Proof.
  intros Hbody He. destruct (main_handler_run e s1 He) as (b & Hb & Hrun).
  exists b. split; [assumption|].
  unfold main, try_except. now rewrite Hbody.
Qed.


Lemma key_truthy_unusable (w : world) (name : str) :
  unusable w name -> key_truthy (os_getenv w name) = false.
Proof. now intros [-> | ->]. Qed.

Lemma key_truthy_usable (w : world) (name key : str) :
  os_getenv w name = Some key -> key <> [] ->
  key_truthy (os_getenv w name) = true.
Proof. intros -> H. now destruct key. Qed.

Lemma call_ai_no_key (w : world) (prompt : str) (s : state) :
  unusable w (GEMINI_API_KEY_SECRET CONFIG) ->
  unusable w (OPENAI_API_KEY_SECRET CONFIG) ->
  call_ai w prompt s = (Raise no_key_error, s).
Proof.
  intros Hg Ho. unfold call_ai.
  now rewrite (key_truthy_unusable _ _ Hg), (key_truthy_unusable _ _ Ho).
Qed.

Lemma encodable_no_key_error : Utf8.encodable (exn_str no_key_error) = true.
Proof. vm_compute. reflexivity. Qed.


Lemma main_no_key (w : world) (s : state) :
  unusable w (GEMINI_API_KEY_SECRET CONFIG) ->
  unusable w (OPENAI_API_KEY_SECRET CONFIG) ->
  exists b : string,
    Utf8.encode (Encoder.dumps (result_object (error_keywords no_key_error)))
      = Some b /\
    main w s =
      (Raise no_key_error,
       writing (OUTPUT_FILENAME CONFIG) b
         (printing (error_line no_key_error) (printing first_line s))).
Proof.
  intros Hg Ho. apply main_reraises; [|apply encodable_no_key_error].
  unfold main_body. rewrite bind_run, ask_run.
  now rewrite call_ai_no_key.
Qed.

Lemma selected_gemini (w : world) (q k : str) :
  os_getenv w (GEMINI_API_KEY_SECRET CONFIG) = Some k -> k <> [] ->
  selected w q = [gemini_request k q].
Proof.
  intros Hk Hne. unfold selected.
  now rewrite (key_truthy_usable _ _ _ Hk Hne), Hk.
Qed.

Lemma selected_openai (w : world) (q k : str) :
  unusable w (GEMINI_API_KEY_SECRET CONFIG) ->
  os_getenv w (OPENAI_API_KEY_SECRET CONFIG) = Some k -> k <> [] ->
  selected w q = [openai_request k q].
Proof.
  intros Hg Hk Hne. unfold selected.
  now rewrite (key_truthy_unusable _ _ Hg), (key_truthy_usable _ _ _ Hk Hne), Hk.
Qed.

Lemma selected_none (w : world) (q : str) :
  unusable w (GEMINI_API_KEY_SECRET CONFIG) ->
  unusable w (OPENAI_API_KEY_SECRET CONFIG) ->
  selected w q = [].
Proof.
  intros Hg Ho. unfold selected.
  now rewrite (key_truthy_unusable _ _ Hg), (key_truthy_unusable _ _ Ho).
Qed.

Lemma selected_at_most_one (w : world) (q : str) : (length (selected w q) <= 1)%nat.
Proof. unfold selected. repeat case_match; cbn; lia. Qed.

(** C1, as amended.  A run calls [requests.post] at most once.  Which
    service is called is decided by the two variables, where a variable counts
    only if it is set to a non-empty value: a usable Gemini key selects the
    Gemini endpoint whatever the OpenAI variable holds; otherwise a usable
    OpenAI key selects the OpenAI endpoint; otherwise nothing is posted. *)
Theorem C1_provider_selection (w : world) (s : state) :
  let p := prompt_of (today w) in
  let sent := posted (main w s).2 in
  (exists l, sent = posted s ++ l /\ (length l <= 1)%nat /\
             forall q, posted (call_ai w q s).2 = posted s ++ selected w q)
  /\ (forall k, os_getenv w (GEMINI_API_KEY_SECRET CONFIG) = Some k -> k <> [] ->
        sent = posted s ++ [gemini_request k p]
        /\ url (gemini_request k p) = gemini_url k)
  /\ (forall k, unusable w (GEMINI_API_KEY_SECRET CONFIG) ->
        os_getenv w (OPENAI_API_KEY_SECRET CONFIG) = Some k -> k <> [] ->
        sent = posted s ++ [openai_request k p]
        /\ url (openai_request k p) = openai_url)
  /\ (unusable w (GEMINI_API_KEY_SECRET CONFIG) ->
      unusable w (OPENAI_API_KEY_SECRET CONFIG) ->
        sent = posted s).
Proof.
  cbv zeta. rewrite posted_main. split; [|split; [|split]].
  - exists (selected w (prompt_of (today w))). split; [reflexivity|].
    split; [apply selected_at_most_one | intros q; apply posted_call_ai].
  - intros k Hk Hne. now rewrite (selected_gemini _ _ k).
  - intros k Hg Hk Hne. now rewrite (selected_openai _ _ k).
  - intros Hg Ho. rewrite selected_none by assumption. apply app_nil_r.
Qed.

(** C1, as stated, fails where the Gemini variable is set to the empty
    string: the variable is set, and the OpenAI endpoint is the one called. *)
Lemma C1_counterexample :
  is_set w_gemini_empty (GEMINI_API_KEY_SECRET CONFIG)
  /\ map url (posted (main w_gemini_empty s0).2) = [openai_url]
  /\ ~ selection_by_presence w_gemini_empty.
Proof.
  split; [|split].
  - vm_compute. discriminate.
  - vm_compute. reflexivity.
  - intros H. destruct (H s0) as [Hg _].
    destruct Hg as [k Hk]; [vm_compute; discriminate|].
    apply (f_equal (map url)) in Hk. vm_compute in Hk. discriminate.
Qed.

(** C2.  When neither variable is set, [call_ai] raises the error that says
    no key is configured and leaves the state as it was: nothing was posted.
    The run as a whole ends with that error and has posted nothing. *)
Theorem C2_no_key_no_request (w : world) (prompt : str) (s : state) :
  os_getenv w (GEMINI_API_KEY_SECRET CONFIG) = None ->
  os_getenv w (OPENAI_API_KEY_SECRET CONFIG) = None ->
  call_ai w prompt s = (Raise no_key_error, s)
  /\ exn_cls no_key_error = ValueError
  /\ (main w s).1 = Raise no_key_error
  /\ posted (main w s).2 = posted s.
Proof.
  intros Hg Ho.
  assert (unusable w (GEMINI_API_KEY_SECRET CONFIG)) as Ug by now left.
  assert (unusable w (OPENAI_API_KEY_SECRET CONFIG)) as Uo by now left.
  split; [now apply call_ai_no_key|]. split; [reflexivity|].
  destruct (main_no_key w s Ug Uo) as (b & _ & ->). split; reflexivity.
Qed.

Lemma C2_witness :
  call_ai w_no_key [] s0 = (Raise no_key_error, s0)
  /\ exn_cls no_key_error = ValueError
  /\ (main w_no_key s0).1 = Raise no_key_error
  /\ posted (main w_no_key s0).2 = posted s0.
Proof. apply (C2_no_key_no_request w_no_key [] s0); reflexivity. Defined.

Lemma secrets_differ : GEMINI_API_KEY_SECRET CONFIG <> OPENAI_API_KEY_SECRET CONFIG.
Proof. intros H. vm_compute in H. discriminate. Qed.

Lemma getenv_unset_same (w : world) (name : str) :
  os_getenv (unset name w) name = None.
Proof. apply lookup_delete_eq. Qed.

Lemma getenv_unset_other (w : world) (name other : str) :
  name <> other -> os_getenv (unset name w) other = os_getenv w other.
Proof. intros H. now apply lookup_delete_ne. Qed.

(** A variable set to the empty string can be removed from the environment
    without [call_ai] noticing. *)
Lemma call_ai_unset (w : world) (name : str) :
  name = GEMINI_API_KEY_SECRET CONFIG \/ name = OPENAI_API_KEY_SECRET CONFIG ->
  os_getenv w name = Some [] ->
  forall q t, call_ai (unset name w) q t = call_ai w q t.
Proof.
  intros Hname Hempty q t. unfold call_ai. cbv zeta.
  destruct Hname as [-> | ->].
  - rewrite getenv_unset_same, Hempty.
    rewrite getenv_unset_other by apply secrets_differ. reflexivity.
  - rewrite getenv_unset_same, Hempty.
    rewrite getenv_unset_other by (intros H; symmetry in H; now apply secrets_differ).
    reflexivity.
Qed.

Lemma main_unset (w : world) (name : str) :
  name = GEMINI_API_KEY_SECRET CONFIG \/ name = OPENAI_API_KEY_SECRET CONFIG ->
  os_getenv w name = Some [] ->
  forall s, main (unset name w) s = main w s.
Proof.
  intros Hname Hempty s. unfold main, try_except, main_body.
  rewrite !bind_run, !ask_run. cbn [today unset].
  now rewrite call_ai_unset.
Qed.

(** C8.  A variable set to the empty string counts as absent.  With the
    Gemini variable empty and a non-empty OpenAI key the OpenAI endpoint is
    the one called; with both empty the run ends with the error that says no
    key is configured, and nothing is posted; and removing an empty variable
    from the environment changes nothing in what [call_ai] and [main] do. *)
Theorem C8_empty_key_counts_as_absent (w : world) (s : state) :
  let p := prompt_of (today w) in
  (forall k,
     os_getenv w (GEMINI_API_KEY_SECRET CONFIG) = Some [] ->
     os_getenv w (OPENAI_API_KEY_SECRET CONFIG) = Some k -> k <> [] ->
     posted (main w s).2 = posted s ++ [openai_request k p]
     /\ url (openai_request k p) = openai_url)
  /\ (os_getenv w (GEMINI_API_KEY_SECRET CONFIG) = Some [] ->
      os_getenv w (OPENAI_API_KEY_SECRET CONFIG) = Some [] ->
      (main w s).1 = Raise no_key_error /\ posted (main w s).2 = posted s)
  /\ (forall name,
        name = GEMINI_API_KEY_SECRET CONFIG
        \/ name = OPENAI_API_KEY_SECRET CONFIG ->
        os_getenv w name = Some [] ->
        (forall q t, call_ai (unset name w) q t = call_ai w q t)
        /\ main (unset name w) s = main w s).
Proof.
  cbv zeta. split; [|split].
  - intros k Hg Ho Hne. rewrite posted_main, (selected_openai _ _ k);
      [split; reflexivity | now right | assumption..].
  - intros Hg Ho.
    destruct (main_no_key w s) as (b & _ & ->); [now right..|].
    split; reflexivity.
  - intros name Hname Hempty. split.
    + now apply call_ai_unset.
    + now apply main_unset.
Qed.


Lemma encodable_problem_text (m : Decoder.problem) :
  Utf8.encodable (Decoder.problem_text m) = true.
Proof. destruct m; vm_compute; reflexivity. Qed.

Lemma encodable_errmsg (m : Decoder.problem) (doc : str) (pos : nat) :
  Utf8.encodable (Decoder.errmsg m doc pos) = true.
Proof.
  unfold Decoder.errmsg. cbv zeta.
  rewrite !Utf8More.encodable_app, !Utf8More.encodable_repr_N,
    encodable_problem_text.
  vm_compute. reflexivity.
Qed.




(** ** Normalising the answer *)

Lemma startswith_app (s p : str) :
  startswith s p = true -> s = p ++ skipn (length p) s.
Proof.
  revert s. induction p as [|a p IH]; intros s; [reflexivity|].
  destruct s as [|b s]; [discriminate|]. cbn [startswith].
  intros [Hab Hs]%andb_prop. apply N.eqb_eq in Hab as ->.
  cbn [app length skipn]. f_equal. now apply IH.
Qed.

Lemma py_slice_7_3 (u : str) :
  py_slice u 7 (-3) = firstn (length u - 10) (skipn 7 u).
Proof.
  unfold py_slice, slice_index. cbv zeta.
  change (7 <? 0)%Z with false. change (-3 <? 0)%Z with true. cbv iota.
  destruct (Nat.le_gt_cases 7 (length u)) as [H|H].
  - replace (Z.min 7 (Z.of_nat (length u))) with 7%Z by lia. f_equal. lia.
  - rewrite !(skipn_all2 u) by lia. now rewrite !firstn_nil.
Qed.

(** The cut removes the fence in front and three characters at the end. *)
Lemma cut_decomposes (u : str) :
  startswith u fence = true -> (10 <= length u)%nat ->
  exists last, length last = 3%nat /\ u = fence ++ py_slice u 7 (-3) ++ last.
Proof.
  intros Hf Hlen. rewrite py_slice_7_3.
  exists (skipn (length u - 10) (skipn 7 u)). split.
  - rewrite !length_skipn. lia.
  - rewrite firstn_skipn. exact (startswith_app u fence Hf).
Qed.

Lemma cut_short (u : str) : (length u < 10)%nat -> py_slice u 7 (-3) = [].
Proof.
  intros H. rewrite py_slice_7_3.
  replace (length u - 10)%nat with 0%nat by lia. reflexivity.
Qed.

Lemma extract_one_keyword (s : state) :
  extract one_keyword s = (Return (JArr [JStr (lit "x")]), s).
Proof. reflexivity. Qed.

(** C3, as amended.  When the trimmed text starts with the fence marker,
    the text handed to the parser is the trimmed text without its first seven
    and its last three characters, trimmed once more.  The seven characters
    are the marker; a trimmed text shorter than ten characters leaves nothing.
    The sample in a fence normalises to the object alone, from which the
    one-element list with [x] is extracted. *)
Theorem C3_fence_cut_then_trim (t : str) :
  startswith (strip t) fence = true ->
  normalize t = strip (py_slice (strip t) 7 (-3))
  /\ ((10 <= length (strip t))%nat ->
      exists last, length last = 3%nat
                   /\ strip t = fence ++ py_slice (strip t) 7 (-3) ++ last)
  /\ ((length (strip t) < 10)%nat -> normalize t = [])
  /\ length fence = 7%nat
  /\ normalize fenced_sample = one_keyword
  /\ forall s, extract (normalize fenced_sample) s
               = (Return (JArr [JStr (lit "x")]), s).
Proof.
  intros Hf. unfold normalize at 1 2. rewrite Hf.
  split; [reflexivity|]. split; [now apply cut_decomposes|].
  split; [intros H; now rewrite cut_short|].
  split; [reflexivity|]. split; [vm_compute; reflexivity|].
  intros s. replace (normalize fenced_sample) with one_keyword
    by (vm_compute; reflexivity).
  apply extract_one_keyword.
Qed.

Lemma C3_witness :
  normalize fenced_sample = strip (py_slice (strip fenced_sample) 7 (-3))
  /\ exists last, length last = 3%nat
       /\ strip fenced_sample
          = fence ++ py_slice (strip fenced_sample) 7 (-3) ++ last.
Proof.
  destruct (C3_fence_cut_then_trim fenced_sample) as (H1 & H2 & _);
    [vm_compute; reflexivity|].
  split; [exact H1|]. apply H2. vm_compute. lia.
Defined.

(** C3, as stated, fails on its own sample: what reaches the parser is not
    the trimmed text with seven and three characters removed, the line feeds
    around the object are gone too.  With a form feed in place of the line
    feed the difference decides the run: the parser rejects the text cut to
    width and accepts the text the script hands over. *)
Lemma C3_counterexample :
  startswith (strip fenced_sample) fence = true
  /\ cut_only fenced_sample = [10] ++ one_keyword ++ [10]
  /\ normalize fenced_sample = one_keyword
  /\ normalize fenced_sample <> cut_only fenced_sample
  /\ startswith (strip fenced_form_feed) fence = true
  /\ Decoder.loads (cut_only fenced_form_feed)
     = Decoder.DecodeError Decoder.ExpectingValue 0
  /\ Decoder.loads (normalize fenced_form_feed)
     = Decoder.Loaded (JObj [(lit "keywords", JArr [JStr (lit "x")])]).
Proof.
  repeat split; try (vm_compute; reflexivity).
  intros H. vm_compute in H. discriminate.
Qed.

(** ** Text that starts with something else than a JSON value *)

Lemma lstrip_suffix (y : str) : exists pre, y = pre ++ lstrip y.
Proof.
  induction y as [|c y [pre IH]]; [now exists []|].
  cbn [lstrip]. destruct (isspace c).
  - exists (c :: pre). cbn. now f_equal.
  - now exists [].
Qed.

Lemma rstrip_prefix (x : str) : exists tail, x = rstrip x ++ tail.
Proof.
  unfold rstrip. destruct (lstrip_suffix (rev x)) as [pre H].
  exists (rev pre). rewrite <- rev_app_distr, <- H. now rewrite rev_involutive.
Qed.

(** The first character of the trimmed text is the first character that is
    not whitespace. *)
Lemma strip_head (t : str) (c : char) (r : str) :
  strip t = c :: r -> exists r', lstrip t = c :: r'.
Proof.
  unfold strip. intros H. destruct (rstrip_prefix (lstrip t)) as [tail Ht].
  rewrite H in Ht. now exists (r ++ tail).
Qed.

Lemma is_ws_isspace (c : char) : Decoder.is_ws c = true -> isspace c = true.
Proof.
  unfold Decoder.is_ws. rewrite !orb_true_iff, !N.eqb_eq.
  intros [[[-> | ->] | ->] | ->]; reflexivity.
Qed.

Lemma isspace_not_value (c : char) :
  isspace c = true -> Decoder.is_ws c = false -> starts_value c = false.
Proof.
  unfold isspace, Decoder.is_ws, starts_value, Decoder.is_digit.
  rewrite !orb_true_iff, !orb_false_iff, !andb_true_iff, !andb_false_iff,
    !N.eqb_eq, !N.eqb_neq, !N.leb_le, !N.leb_gt.
  lia.
Qed.

(** Where the parser starts reading, if the text, trimmed, starts with a
    character that cannot start a value. *)
Lemma skip_ws_head (t : str) (c : char) (r : str) :
  lstrip t = c :: r -> starts_value c = false ->
  exists c' r', Decoder.skip_ws t = c' :: r' /\ starts_value c' = false.
Proof.
  intros Hl Hc. induction t as [|a t IH]; [discriminate|].
  cbn [lstrip Decoder.skip_ws] in *.
  destruct (Decoder.is_ws a) eqn:Hws.
  - rewrite (is_ws_isspace a Hws) in Hl. now apply IH.
  - exists a, t. split; [reflexivity|].
    destruct (isspace a) eqn:Hsp.
    + now apply isspace_not_value.
    + now injection Hl as -> _.
Qed.

Lemma startswith_head (c : char) (r p : str) (a : char) :
  (a =? c) = false -> startswith (c :: r) (a :: p) = false.
Proof. intros H. cbn [startswith]. now rewrite H. Qed.

(** The scanner gives up at a character that cannot start a value. *)
Lemma scan_once_no_value (fuel : nat) (c : char) (r : str) :
  starts_value c = false ->
  Decoder.scan_once (S fuel) (c :: r) = Decoder.Failed Decoder.ExpectingValue (c :: r).
Proof.
  unfold starts_value. rewrite !orb_false_iff.
  intros (((((((((H34 & H123) & H91) & Hn) & Ht) & Hf) & Hm) & Hd) & HN) & HI).
  cbn [Decoder.scan_once]. rewrite H34, H123, H91.
  change (lit "null") with [110; 117; 108; 108].
  change (lit "true") with [116; 114; 117; 101].
  change (lit "false") with [102; 97; 108; 115; 101].
  rewrite !startswith_head by (now rewrite N.eqb_sym).
  unfold Decoder.scan_number, Decoder.match_integer, Decoder.after.
  rewrite Hm.
  replace (c =? 48) with false.
  2:{ symmetry. apply N.eqb_neq. intros Heq. subst c. discriminate. }
  rewrite Hd.
  change (lit "NaN") with [78; 97; 78].
  change (lit "Infinity") with [73; 110; 102; 105; 110; 105; 116; 121].
  change (lit "-Infinity") with [45; 73; 110; 102; 105; 110; 105; 116; 121].
  rewrite !startswith_head by (now rewrite N.eqb_sym). reflexivity.
Qed.

(** The parser rejects a text that, trimmed, starts with a character that
    cannot start a value. *)
Lemma loads_no_value (t : str) (c : char) (r : str) :
  strip t = c :: r -> starts_value c = false -> c <> 0xFEFF ->
  exists pos, Decoder.loads t = Decoder.DecodeError Decoder.ExpectingValue pos.
Proof.
  intros Hs Hc Hbom. destruct (strip_head t c r Hs) as [r' Hl].
  destruct (skip_ws_head t c r' Hl Hc) as (c' & r'' & Hw & Hc').
  unfold Decoder.loads.
  replace (startswith t [0xFEFF]) with false.
  2:{ symmetry. destruct t as [|a t]; [reflexivity|]. cbn [startswith].
      destruct (N.eqb_spec 0xFEFF a) as [<-|]; [|reflexivity].
      cbn [lstrip] in Hl. change (isspace 65279) with false in Hl.
      injection Hl as Hl _. congruence. }
  rewrite Hw. unfold Decoder.fuel_for.
  replace (2 * length t + 2)%nat with (S (2 * length t + 1)) by lia.
  rewrite scan_once_no_value by assumption. eauto.
Qed.

(** ** From the answer to the output file *)

Lemma main_body_run (w : world) (s s1 : state) (v : json) :
  ask w (prompt_of (today w)) s = (Return v, s1) ->
  main_body w (prompt_of (today w)) s = store v s1.
Proof. intros H. unfold main_body. now rewrite bind_run, H. Qed.

Lemma store_run (t : str) (s : state) :
  store (JStr t) s = (extract (normalize t) ≫= save) s.
Proof. reflexivity. Qed.

Lemma extract_object (doc : str) (d : list (str * json)) (s : state) :
  Decoder.loads doc = Decoder.Loaded (JObj d) ->
  extract doc s = (Return (keywords_of d), s).
Proof. intros H. unfold extract, json_loads. rewrite bind_run, H. reflexivity. Qed.

Lemma extract_decode_error (doc : str) (m : Decoder.problem) (pos : nat) (s : state) :
  Decoder.loads doc = Decoder.DecodeError m pos ->
  extract doc s = (Raise (Exn JSONDecodeError (Decoder.errmsg m doc pos)), s).
Proof. intros H. unfold extract, json_loads. rewrite bind_run, H. reflexivity. Qed.


(** A value that counts as true and has a length is stored, and the run
    closes with the line that tells its length. *)
Lemma save_sized (keywords : json) (b : string) (n : Z) (s : state) :
  truthy keywords = true ->
  Utf8.encode (Encoder.dumps (result_object keywords)) = Some b ->
  (forall s', py_len keywords s' = (Return n, s')) ->
  save keywords s =
    (Return tt, printing (success_line n) (writing (OUTPUT_FILENAME CONFIG) b s)).
Proof.
  intros Ht Hb Hn. unfold save. rewrite bind_run, Ht. cbn [mret M_ret].
  rewrite bind_run, (dump_to_file_written _ _ b) by assumption.
  rewrite bind_run, Hn. reflexivity.
Qed.


(** What [save] does to the files: only the output file can change, and a
    run of [save] that returns has replaced it by the encoded text of an
    object whose [keywords] counts as true. *)
Lemma save_files (keywords : json) (s : state) :
  match save keywords s with
  | (Return _, s') =>
      truthy keywords = true /\
      exists b, Utf8.encode (Encoder.dumps (result_object keywords)) = Some b
                /\ files s' = <[OUTPUT_FILENAME CONFIG := b]> (files s)
  | (Raise _, s') =>
      files s' = files s
      \/ exists b, files s' = <[OUTPUT_FILENAME CONFIG := b]> (files s)
  | (Outside _, s') => files s' = files s
  end.
Proof.
  unfold save. rewrite bind_run. destruct (truthy keywords); [|now left].
  cbn [mret M_ret]. rewrite bind_run.
  destruct (Utf8.encode (Encoder.dumps (result_object keywords))) as [b|] eqn:Hb.
  - rewrite (dump_to_file_written _ _ b) by assumption. rewrite bind_run.
    destruct keywords; cbn [py_len mret M_ret raise_ print files];
      first [ right; now exists b | split; [reflexivity|]; now exists b ].
  - destruct (dump_to_file_stops (OUTPUT_FILENAME CONFIG) _ s Hb)
      as (b & ch & ->).
    right. now exists b.
Qed.

Lemma extract_pure (doc : str) : pure (extract doc).
Proof.
  intros s. unfold extract. rewrite bind_run.
  pose proof (pure_json_loads doc s) as H.
  destruct (json_loads doc s) as [[v|e|g] s']; cbn [snd] in *; subst;
    [apply pure_py_get | reflexivity..].
Qed.

Lemma store_files (v : json) (s : state) :
  match store v s with
  | (Return _, s') =>
      exists keywords b,
        truthy keywords = true
        /\ Utf8.encode (Encoder.dumps (result_object keywords)) = Some b
        /\ files s' = <[OUTPUT_FILENAME CONFIG := b]> (files s)
  | (Raise _, s') =>
      files s' = files s
      \/ exists b, files s' = <[OUTPUT_FILENAME CONFIG := b]> (files s)
  | (Outside _, s') => files s' = files s
  end.
Proof.
  unfold store. rewrite bind_run.
  destruct v as [| | |t| |]; cbn [as_str raise_ mret M_ret]; try now left.
  rewrite bind_run. pose proof (extract_pure (normalize t) s) as Hp.
  destruct (extract (normalize t) s) as [[k|e|g] s1]; cbn [snd] in Hp; subst s1;
    [|now left|reflexivity].
  pose proof (save_files k s) as Hs.
  destruct (save k s) as [[[]|e|g] s2]; [|assumption..].
  destruct Hs as (Ht & b & Hb & Hf). now exists k, b.
Qed.

Lemma keeps_files_call_ai (w : world) (q : str) : keeps files (call_ai w q).
Proof. unfold call_ai. keeps_steps. Qed.

Lemma keeps_files_ask (w : world) (q : str) : keeps files (ask w q).
Proof.
  unfold ask. apply keeps_bind; [apply keeps_files_print|].
  intros _. apply keeps_files_call_ai.
Qed.

Lemma main_body_files (w : world) (s : state) :
  match main_body w (prompt_of (today w)) s with
  | (Return _, s') =>
      exists keywords b,
        truthy keywords = true
        /\ Utf8.encode (Encoder.dumps (result_object keywords)) = Some b
        /\ files s' = <[OUTPUT_FILENAME CONFIG := b]> (files s)
  | (Raise _, s') =>
      files s' = files s
      \/ exists b, files s' = <[OUTPUT_FILENAME CONFIG := b]> (files s)
  | (Outside _, s') => files s' = files s
  end.
Proof.
  unfold main_body. rewrite bind_run.
  pose proof (keeps_files_ask w (prompt_of (today w)) s) as Ha.
  destruct (ask w (prompt_of (today w)) s) as [[v|e|g] sa]; cbn [snd] in Ha;
    [|now left|assumption].
  pose proof (store_files v sa) as Hs. rewrite Ha in Hs. exact Hs.
Qed.

Lemma main_after_ask (w : world) (s s1 : state) (v : json) :
  ask w (prompt_of (today w)) s = (Return v, s1) ->
  main w s = try_except (store v) main_handler s1.
Proof.
  intros H. unfold main, try_except. now rewrite (main_body_run w s s1 v H).
Qed.

(** C9.  A text whose trimmed form does not start with the seven characters
    of the tagged fence reaches the parser as it is.  If the trimmed form
    starts with a character that cannot start a JSON value, a backtick for
    one, the parser rejects it: [store] raises the decode error and the run
    ends with it. *)
Theorem C9_other_fences_reach_the_parser (t : str) :
  startswith (strip t) fence = false ->
  normalize t = t
  /\ length fence = 7%nat
  /\ starts_value 96 = false
  /\ forall c r,
       strip t = c :: r -> starts_value c = false -> c <> 0xFEFF ->
       exists pos,
         Decoder.loads (normalize t)
           = Decoder.DecodeError Decoder.ExpectingValue pos
         /\ (forall s,
               store (JStr t) s
               = (Raise (Exn JSONDecodeError
                           (Decoder.errmsg Decoder.ExpectingValue t pos)), s))
         /\ (forall w s s1,
               ask w (prompt_of (today w)) s = (Return (JStr t), s1) ->
               (main w s).1
               = Raise (Exn JSONDecodeError
                          (Decoder.errmsg Decoder.ExpectingValue t pos))).
Proof.
  intros Hf. assert (normalize t = t) as Hn by (unfold normalize; now rewrite Hf).
  split; [assumption|]. split; [reflexivity|]. split; [reflexivity|].
  intros c r Hc Hv Hbom. rewrite Hn.
  destruct (loads_no_value t c r Hc Hv Hbom) as [pos Hpos].
  assert (forall s, store (JStr t) s
                    = (Raise (Exn JSONDecodeError
                         (Decoder.errmsg Decoder.ExpectingValue t pos)), s))
    as Hstore.
  { intros s. rewrite store_run, bind_run, Hn.
    now rewrite (extract_decode_error _ _ _ _ Hpos). }
  exists pos. split; [assumption|]. split; [assumption|].
  intros w s s1 Hask.
  destruct (main_reraises w s s1
              (Exn JSONDecodeError (Decoder.errmsg Decoder.ExpectingValue t pos)))
    as (b & _ & ->); [|apply encodable_errmsg|reflexivity].
  now rewrite (main_body_run w s s1 _ Hask).
Qed.

Lemma C9_witness :
  normalize plain_fence_sample = plain_fence_sample
  /\ (main (w_openai (JStr plain_fence_sample)) s0).1
     = Raise (Exn JSONDecodeError (lit "Expecting value: line 1 column 1 (char 0)")).
Proof.
  destruct (C9_other_fences_reach_the_parser plain_fence_sample)
    as (Hn & _ & _ & H); [vm_compute; reflexivity|].
  split; [exact Hn|].
  destruct (H 96 (skipn 1 (strip plain_fence_sample)))
    as (pos & Hpos & _ & Hmain);
    [vm_compute; reflexivity | reflexivity | discriminate |].
  rewrite (Hmain (w_openai (JStr plain_fence_sample)) s0
             (ask (w_openai (JStr plain_fence_sample)) (prompt_of sample_day) s0).2)
    by (vm_compute; reflexivity).
  replace pos with 0%nat; [vm_compute; reflexivity|].
  rewrite Hn in Hpos. vm_compute in Hpos. congruence.
Defined.



Lemma py_len_sized (v : json) :
  sized v = true -> exists n, forall s, py_len v s = (Return n, s).
Proof. destruct v; try discriminate; intros _; eexists; reflexivity. Qed.


(** A value of [keywords] that counts as true, has a length and can be
    encoded is stored, and the run succeeds. *)
Lemma main_stores_sized
    (w : world) (s s1 : state) (t : str) (d : list (str * json)) (v : json)
    (b : string) :
  ask w (prompt_of (today w)) s = (Return (JStr t), s1) ->
  Decoder.loads (normalize t) = Decoder.Loaded (JObj d) ->
  dict_get d (lit "keywords") = Some v ->
  truthy v = true ->
  Utf8.encode (Encoder.dumps (result_object v)) = Some b ->
  sized v = true ->
  exists n,
    main w s =
      (Return tt,
       printing (success_line n) (writing (OUTPUT_FILENAME CONFIG) b s1)).
Proof.
  intros Hask Hload Hget Ht Hb Hs.
  rewrite (main_after_ask w s s1 _ Hask). unfold try_except.
  rewrite store_run, bind_run, (extract_object _ d) by assumption.
  unfold keywords_of. rewrite Hget. cbn [from_option id].
  destruct (py_len_sized v Hs) as [n Hn]. exists n.
  now rewrite (save_sized v b n).
Qed.




(** A string with an unpaired surrogate counts as true and passes the
    check, but UTF-8 cannot encode it: the write stops at it and the run
    fails. *)
Example lone_surrogate_is_not_stored :
  Decoder.loads (dq "{'keywords': '\ud800'}")
  = Decoder.Loaded (JObj [(lit "keywords", JStr [0xD800])])
  /\ (main (w_openai (JStr (dq "{'keywords': '\ud800'}"))) s0).1
     = Raise (Exn UnicodeEncodeError
                (lit "'utf-8' codec can't encode character '\ud800' in position 1: surrogates not allowed")).
Proof. split; vm_compute; reflexivity. Qed.


(** ** The parser always answers *)

Section Total.
Import Decoder.

Lemma after_length (c : char) (s r : str) :
  after c s = Some r -> length s = S (length r).
Proof.
  destruct s as [|x s]; [discriminate|]. cbn [after].
  destruct (x =? c); [|discriminate]. now intros [= ->].
Qed.

Lemma skip_ws_length (s : str) : (length (skip_ws s) <= length s)%nat.
Proof.
  induction s as [|c s IH]; [reflexivity|]. cbn [skip_ws].
  destruct (is_ws c); cbn [length]; lia.
Qed.

Lemma settled_shorter {A} (s s' : str) (x : scan A) :
  (length s' <= length s)%nat -> settled s' x -> settled s x.
Proof. destruct x; cbn; intros; try assumption; lia. Qed.

(** Reading a string never lacks fuel, and ends past the closing quote. *)
Lemma scanstring_settled (n : nat) :
  forall s begin acc,
    (length s <= n)%nat ->
    match scanstring begin s acc with
    | Scanned _ r => (length r < length s)%nat
    | Failed _ _ => True
    | _ => False
    end.
Proof.
  induction n as [|n IH]; intros s begin acc Hn.
  - destruct s; [exact I | cbn in Hn; lia].
  - destruct s as [|c r]; [exact I|]. cbn [length] in Hn. cbn [scanstring].
    assert (forall s' acc', (length s' <= length r)%nat ->
              match scanstring begin s' acc' with
              | Scanned _ r' => (length r' < length (c :: r))%nat
              | Failed _ _ => True
              | _ => False
              end) as Hrec.
    { intros s' acc' Hs'. specialize (IH s' begin acc' ltac:(lia)).
      destruct (scanstring begin s' acc'); cbn [length] in *; auto; lia. }
    destruct (c =? 34); [cbn; lia|].
    destruct (c =? 92).
    + destruct r as [|e r']; [exact I|].
      destruct (e =? 117).
      * destruct r' as [|h1 [|h2 [|h3 [|h4 r4]]]]; try exact I.
        destruct (hex4 h1 h2 h3 h4) as [uni|]; [|exact I].
        assert (length r4 <= length (e :: h1 :: h2 :: h3 :: h4 :: r4))%nat
          as H4 by (cbn; lia).
        destruct r4 as [|b [|u [|g1 [|g2 [|g3 [|g4 r10]]]]]];
          try (apply Hrec; exact H4).
        destruct (is_high uni && (b =? 92) && (u =? 117));
          [|apply Hrec; exact H4].
        destruct (hex4 g1 g2 g3 g4) as [uni2|]; [|exact I].
        destruct (is_low uni2); apply Hrec; cbn [length] in *; lia.
      * destruct (backslash e); [|exact I]. apply Hrec. cbn; lia.
    + destruct (c <? 32); [exact I|]. apply Hrec. lia.
Qed.

Lemma span_digits_length (s : str) (ds r : str) :
  span_digits s = (ds, r) -> (length r <= length s)%nat.
Proof.
  revert ds r. induction s as [|c s IH]; intros ds r.
  - now intros [= <- <-].
  - cbn [span_digits]. destruct (is_digit c).
    + destruct (span_digits s) as [ds' r'] eqn:Hs. intros [= <- <-].
      specialize (IH ds' r' eq_refl). cbn [length]. lia.
    + now intros [= <- <-].
Qed.

Lemma scan_number_settled (s : str) : settled s (scan_number s).
Proof.
  unfold scan_number, match_integer.
  destruct (after 45 s) as [r|] eqn:Hm.
  - apply after_length in Hm. destruct r as [|c r]; [now repeat case_match|].
    destruct (c =? 48).
    + destruct (float_follows r); cbn [settled length] in *; [exact I | lia].
    + destruct (is_digit c); [|now repeat case_match].
      destruct (span_digits r) as [ds r'] eqn:Hs.
      apply span_digits_length in Hs.
      destruct (float_follows r'); cbn [settled length] in *; [exact I | lia].
  - destruct s as [|c r]; [now repeat case_match|].
    destruct (c =? 48).
    + destruct (float_follows r); cbn [settled length] in *; [exact I | lia].
    + destruct (is_digit c); [|now repeat case_match].
      destruct (span_digits r) as [ds r'] eqn:Hs.
      apply span_digits_length in Hs.
      destruct (float_follows r'); cbn [settled length] in *; [exact I | lia].
Qed.

Lemma skipn_shorter (n : nat) (s : str) :
  s <> [] -> (0 < n)%nat -> (length (skipn n s) < length s)%nat.
Proof. intros Hs Hn. rewrite length_skipn. destruct s; [congruence | cbn; lia]. Qed.

(** With fuel for twice the length of the text, scanning answers. *)
Lemma scan_settled (fuel : nat) :
  (forall s, (2 * length s + 1 <= fuel)%nat -> settled s (scan_once fuel s))
  /\ (forall s acc, (2 * length s + 2 <= fuel)%nat ->
        settled s (array_items fuel s acc))
  /\ (forall s acc, (2 * length s + 2 <= fuel)%nat ->
        settled s (object_items fuel s acc)).
Proof.
  induction fuel as [|f (IHs & IHa & IHo)].
  { repeat split; intros; lia. }
  split; [|split].
  - intros s Hf. destruct s as [|c r]; [exact I|].
    cbn [length] in Hf. cbn [scan_once].
    pose proof (skip_ws_length r) as Hw.
    destruct (c =? 34).
    { pose proof (scanstring_settled (length r) r (c :: r) [] (le_n _)) as Hs.
      destruct (scanstring (c :: r) r []); cbn [settled length] in *;
        auto; lia. }
    destruct (c =? 123).
    { destruct (after 125 (skip_ws r)) as [r'|] eqn:Ha.
      - apply after_length in Ha. cbn [settled length]. lia.
      - apply (settled_shorter _ (skip_ws r)); [cbn [length]; lia|].
        apply IHo. lia. }
    destruct (c =? 91).
    { destruct (after 93 (skip_ws r)) as [r'|] eqn:Ha.
      - apply after_length in Ha. cbn [settled length]. lia.
      - apply (settled_shorter _ (skip_ws r)); [cbn [length]; lia|].
        apply IHa. lia. }
    destruct (startswith (c :: r) (lit "null"));
      [now apply skipn_shorter; [|lia]|].
    destruct (startswith (c :: r) (lit "true"));
      [now apply skipn_shorter; [|lia]|].
    destruct (startswith (c :: r) (lit "false"));
      [now apply skipn_shorter; [|lia]|].
    apply scan_number_settled.
  - intros s acc Hf. cbn [array_items].
    specialize (IHs s ltac:(lia)).
    destruct (scan_once f s) as [v r| | |]; try exact IHs.
    cbn [settled] in IHs. pose proof (skip_ws_length r) as Hw.
    destruct (after 93 (skip_ws r)) as [r'|] eqn:H93.
    { apply after_length in H93. cbn [settled]. lia. }
    destruct (after 44 (skip_ws r)) as [r'|] eqn:H44; [|exact I].
    apply after_length in H44. pose proof (skip_ws_length r') as Hw'.
    apply (settled_shorter _ (skip_ws r')); [lia|]. apply IHa. lia.
  - intros s acc Hf. cbn [object_items].
    destruct (after 34 s) as [r|] eqn:H34; [|exact I].
    apply after_length in H34.
    pose proof (scanstring_settled (length r) r s [] (le_n _)) as Hk.
    destruct (scanstring s r []) as [key r1| | |]; try exact I; try contradiction.
    pose proof (skip_ws_length r1) as Hw1.
    destruct (after 58 (skip_ws r1)) as [r2|] eqn:H58; [|exact I].
    apply after_length in H58. pose proof (skip_ws_length r2) as Hw2.
    specialize (IHs (skip_ws r2) ltac:(lia)).
    destruct (scan_once f (skip_ws r2)) as [v r3| | |]; try exact IHs.
    cbn [settled] in IHs. pose proof (skip_ws_length r3) as Hw3.
    destruct (after 125 (skip_ws r3)) as [r'|] eqn:H125.
    { apply after_length in H125. cbn [settled]. lia. }
    destruct (after 44 (skip_ws r3)) as [r'|] eqn:H44; [|exact I].
    apply after_length in H44. pose proof (skip_ws_length r') as Hw'.
    apply (settled_shorter _ (skip_ws r')); [lia|]. apply IHo. lia.
Qed.

(** [json.loads] always answers: the fuel it is given is enough. *)
Lemma loads_answers (doc : str) : loads doc <> NoFuel.
Proof.
  unfold loads. destruct (startswith doc [65279]); [discriminate|].
  pose proof (proj1 (scan_settled (fuel_for doc)) (skip_ws doc)) as H.
  pose proof (skip_ws_length doc) as Hw. unfold fuel_for in *.
  specialize (H ltac:(lia)).
  destruct (scan_once _ _) as [v r| | |]; try discriminate; [|contradiction].
  destruct (skip_ws r); discriminate.
Qed.

End Total.

(** ** Reading the output file back *)

Section ReadBack.
Import Decoder Encoder.

Lemma scanstring_quote (begin r acc : str) :
  scanstring begin (34 :: r) acc = Scanned (rev acc) r.
Proof. reflexivity. Qed.

Lemma scanstring_plain (begin r acc : str) (c : char) :
  0x20 <= c -> c <> 34 -> c <> 92 ->
  scanstring begin (c :: r) acc = scanstring begin r (c :: acc).
Proof.
  intros H20 H34 H92. cbn [scanstring].
  apply N.eqb_neq in H34, H92. rewrite H34, H92.
  destruct (N.ltb_spec c 0x20); [lia | reflexivity].
Qed.

Lemma scanstring_short (begin r acc : str) (e c : char) :
  backslash e = Some c ->
  scanstring begin (92 :: e :: r) acc = scanstring begin r (c :: acc).
Proof.
  intros He. cbn [scanstring].
  change (92 =? 34) with false. change (92 =? 92) with true. cbv iota.
  destruct (N.eqb_spec e 117) as [->|_]; [discriminate|].
  now rewrite He.
Qed.

Lemma hex_digit_hex_char (d : N) : d < 16 -> hex_digit (hex_char d) = Some d.
Proof.
  intros H. unfold hex_char, hex_digit.
  destruct (N.ltb_spec d 10).
  - replace ((48 <=? 48 + d) && (48 + d <=? 57)) with true.
    + f_equal. lia.
    + symmetry. apply andb_true_intro. split; apply N.leb_le; lia.
  - replace ((48 <=? 87 + d) && (87 + d <=? 57)) with false.
    + replace ((97 <=? 87 + d) && (87 + d <=? 102)) with true.
      * f_equal. lia.
      * symmetry. apply andb_true_intro. split; apply N.leb_le; lia.
    + symmetry. apply andb_false_iff. right. apply N.leb_gt. lia.
Qed.

Lemma scanstring_control (begin r acc : str) (c : char) :
  c < 0x20 ->
  scanstring begin
    (92 :: 117 :: 48 :: 48 :: hex_char (c / 16) :: hex_char (c mod 16) :: r) acc
  = scanstring begin r (c :: acc).
Proof.
  intros Hc. cbn [scanstring].
  change (92 =? 34) with false. change (92 =? 92) with true.
  change (117 =? 117) with true. cbv iota.
  unfold hex4. change (hex_digit 48) with (Some 0).
  rewrite !hex_digit_hex_char by Utf8Facts.nlia.
  replace (((0 * 16 + 0) * 16 + c / 16) * 16 + c mod 16) with c
    by Utf8Facts.nlia.
  replace (is_high c) with false
    by (unfold is_high; destruct (N.leb_spec 0xD800 c); [lia | reflexivity]).
  do 6 (destruct r as [|? r]; [reflexivity|]). reflexivity.
Qed.

(** The scanner reads the escape of a character as that character. *)
Lemma scanstring_escape_char (begin r acc : str) (c : char) :
  scanstring begin (escape_char c ++ r) acc = scanstring begin r (c :: acc).
Proof.
  unfold escape_char.
  destruct (N.eqb_spec c 34) as [->|H34]; [now apply scanstring_short|].
  destruct (N.eqb_spec c 92) as [->|H92]; [now apply scanstring_short|].
  destruct (N.eqb_spec c 8) as [->|H8]; [now apply scanstring_short|].
  destruct (N.eqb_spec c 12) as [->|H12]; [now apply scanstring_short|].
  destruct (N.eqb_spec c 10) as [->|H10]; [now apply scanstring_short|].
  destruct (N.eqb_spec c 13) as [->|H13]; [now apply scanstring_short|].
  destruct (N.eqb_spec c 9) as [->|H9]; [now apply scanstring_short|].
  destruct (N.ltb_spec c 0x20).
  - now apply scanstring_control.
  - now apply scanstring_plain.
Qed.

(** The scanner reads back the string the encoder wrote. *)
Lemma scanstring_escaped (begin rest : str) (k acc : str) :
  scanstring begin (flat_map escape_char k ++ 34 :: rest) acc
  = Scanned (rev acc ++ k) rest.
Proof.
  revert acc. induction k as [|c k IH]; intros acc.
  - cbn [flat_map app]. now rewrite scanstring_quote, app_nil_r.
  - cbn [flat_map]. rewrite <- app_assoc, scanstring_escape_char, IH.
    cbn [rev]. now rewrite <- app_assoc.
Qed.

Lemma scanstring_closed (begin rest k : str) :
  scanstring begin ((flat_map escape_char k ++ [34]) ++ rest) [] = Scanned k rest.
Proof. rewrite <- app_assoc. apply (scanstring_escaped begin rest k []). Qed.

Lemma scan_once_basestring (fuel : nat) (k rest : str) :
  scan_once (S fuel) (encode_basestring k ++ rest) = Scanned (JStr k) rest.
Proof.
  unfold encode_basestring. cbn [app scan_once].
  change (34 =? 34) with true. cbv iota.
  now rewrite scanstring_closed.
Qed.

Lemma skip_ws_basestring (k rest : str) :
  skip_ws (encode_basestring k ++ rest) = encode_basestring k ++ rest.
Proof. reflexivity. Qed.

Lemma next_item_app (y z : str) : next_item y ++ z = next_item (y ++ z).
Proof. reflexivity. Qed.

(** One item read, another one follows. *)
Lemma array_items_more (fuel : nat) (k x : str) (acc : list json) :
  array_items (S (S fuel)) (encode_basestring k ++ next_item x) acc
  = array_items (S fuel) (skip_ws x) (JStr k :: acc).
Proof. cbn [array_items]. rewrite scan_once_basestring. reflexivity. Qed.

(** The last item read, the bracket follows on a line of its own. *)
Lemma array_items_last (fuel : nat) (k rest : str) (acc : list json) :
  array_items (S (S fuel)) (encode_basestring k ++ 10 :: 32 :: 32 :: 93 :: rest) acc
  = Scanned (JArr (rev (JStr k :: acc))) rest.
Proof. cbn [array_items]. rewrite scan_once_basestring. reflexivity. Qed.

(** The items of a list of strings up to the bracket. *)
Lemma array_items_strings (r : list str) :
  forall (k : str) (acc : list json) (fuel : nat) (rest : str),
    (length r + 2 <= fuel)%nat ->
    array_items fuel
      (encode_basestring k
         ++ flat_map next_item (map encode_basestring r)
         ++ 10 :: 32 :: 32 :: 93 :: rest) acc
    = Scanned (JArr (rev acc ++ JStr k :: map JStr r)) rest.
Proof.
  induction r as [|k' r IH]; intros k acc fuel rest Hfuel.
  - destruct fuel as [|[|fuel]]; [cbn in Hfuel; lia..|].
    cbn [map flat_map app]. now rewrite array_items_last.
  - destruct fuel as [|[|fuel]]; [cbn in Hfuel; lia..|].
    cbn [map flat_map]. rewrite <- app_assoc, next_item_app, array_items_more.
    rewrite skip_ws_basestring, IH by (cbn [length] in Hfuel; lia).
    cbn [rev]. now rewrite <- app_assoc.
Qed.

Lemma scan_once_bracket (fuel : nat) (k x : str) :
  scan_once (S fuel) ([91; 10; 32; 32; 32; 32] ++ encode_basestring k ++ x)
  = array_items fuel (encode_basestring k ++ x) [].
Proof. reflexivity. Qed.

Lemma scan_once_layout_list (ks : list str) (fuel : nat) (rest : str) :
  (length ks + 3 <= fuel)%nat ->
  scan_once fuel (layout_list (map encode_basestring ks) ++ rest)
  = Scanned (JArr (map JStr ks)) rest.
Proof.
  intros Hfuel. destruct fuel as [|fuel]; [lia|].
  destruct ks as [|k r]; [reflexivity|].
  cbn [map layout_list length] in *.
  rewrite <- !app_assoc, scan_once_bracket.
  change ([10; 32; 32; 93] ++ rest) with (10 :: 32 :: 32 :: 93 :: rest).
  now rewrite array_items_strings by lia.
Qed.

Lemma length_keywords_text (ks : list str) :
  (length ks + 3 <= length (keywords_text ks))%nat.
Proof.
  unfold keywords_text. rewrite !length_app.
  change (length layout_open) with 16%nat.
  enough (length ks <= length (layout_list (map encode_basestring ks)))%nat by lia.
  destruct ks as [|k r]; [cbn; lia|].
  cbn [map layout_list]. rewrite !length_app. cbn [length].
  enough (length r <= length (flat_map next_item (map encode_basestring r)))%nat
    by lia.
  induction r as [|x r IH]; [cbn; lia|].
  cbn [map flat_map]. unfold next_item at 1. rewrite !length_app. cbn [length]. lia.
Qed.

Lemma scan_once_brace (fuel : nat) (k x : str) :
  scan_once (S fuel) ([123; 10; 32; 32] ++ encode_basestring k ++ x)
  = object_items fuel (encode_basestring k ++ x) [].
Proof. reflexivity. Qed.

(** An object with one field, the closing brace on a line of its own. *)
Lemma object_items_one (fuel : nat) (k x rest : str) (v : json) :
  skip_ws x = x ->
  scan_once fuel x = Scanned v ([10; 125] ++ rest) ->
  object_items (S fuel) (encode_basestring k ++ [58; 32] ++ x) []
  = Scanned (JObj [(k, v)]) rest.
Proof.
  intros Hx Hv. cbn [object_items]. unfold encode_basestring.
  cbn [app after]. change (34 =? 34) with true. cbv iota.
  rewrite scanstring_closed.
  change (skip_ws (58 :: 32 :: x)) with (58 :: 32 :: x).
  cbn [after]. change (58 =? 58) with true. cbv iota.
  change (skip_ws (32 :: x)) with (skip_ws x). rewrite Hx, Hv.
  reflexivity.
Qed.

(** The parser reads the text of the output file back as the object that
    was written. *)
Lemma loads_keywords_text (ks : list str) :
  loads (keywords_text ks)
  = Loaded (JObj [(lit "keywords", JArr (map JStr ks))]).
Proof.
  unfold loads. pose proof (length_keywords_text ks) as Hlen.
  unfold fuel_for. revert Hlen. generalize (length (keywords_text ks)).
  intros n Hn.
  replace (startswith (keywords_text ks) [65279]) with false by reflexivity.
  replace (skip_ws (keywords_text ks)) with (keywords_text ks) by reflexivity.
  unfold keywords_text, layout_open, layout_close. rewrite <- !app_assoc.
  replace (2 * n + 2)%nat with (S (S (2 * n))) by lia.
  rewrite scan_once_brace.
  rewrite (object_items_one _ _ _ [] (JArr (map JStr ks))).
  - reflexivity.
  - destruct ks; reflexivity.
  - apply scan_once_layout_list. lia.
Qed.

End ReadBack.

Lemma read_back_written (ks : list str) (b : string) (s : state) :
  Utf8.encode (Encoder.dumps (result_object (JArr (map JStr ks)))) = Some b ->
  files s !! OUTPUT_FILENAME CONFIG = Some b ->
  read_back s = Some (JArr (map JStr ks)).
Proof.
  intros Hb Hf. unfold read_back. rewrite Hf. cbn [mbind option_bind].
  rewrite (Utf8Facts.decode_encode _ _ Hb). cbn [mbind option_bind].
  rewrite dumps_keywords, loads_keywords_text. reflexivity.
Qed.

(** C6.  Take a run whose answer parses as an object whose field
    [keywords] is a non-empty list of strings that UTF-8 can encode.  The run
    succeeds, and reading the output file back (decoding the bytes, parsing
    the text, taking the field [keywords]) gives the same strings in the same
    order.  The same holds for the write on its own, from any state. *)
Theorem C6_round_trip
    (w : world) (s s1 : state) (t : str) (d : list (str * json))
    (ks : list str) :
  ask w (prompt_of (today w)) s = (Return (JStr t), s1) ->
  Decoder.loads (normalize t) = Decoder.Loaded (JObj d) ->
  dict_get d (lit "keywords") = Some (JArr (map JStr ks)) ->
  ks <> [] ->
  forallb Utf8.encodable ks = true ->
  (main w s).1 = Return tt
  /\ read_back (main w s).2 = Some (JArr (map JStr ks))
  /\ forall s',
       (dump_to_file (OUTPUT_FILENAME CONFIG)
          (result_object (JArr (map JStr ks))) s').1 = Return tt
       /\ read_back (dump_to_file (OUTPUT_FILENAME CONFIG)
                       (result_object (JArr (map JStr ks))) s').2
          = Some (JArr (map JStr ks)).
Proof.
  intros Hask Hload Hget Hne Henc.
  destruct (Utf8More.encodable_encode
              (Encoder.dumps (result_object (JArr (map JStr ks))))) as [b Hb].
  { rewrite dumps_keywords. now apply encodable_keywords_text. }
  assert (truthy (JArr (map JStr ks)) = true) as Ht by now destruct ks.
  destruct (main_stores_sized w s s1 t d (JArr (map JStr ks)) b
              Hask Hload Hget Ht Hb eq_refl) as [n ->].
  split; [reflexivity|]. split.
  - apply (read_back_written ks b); [assumption|]. apply lookup_insert_eq.
  - intros s'. rewrite (dump_to_file_written _ _ b) by assumption.
    split; [reflexivity|].
    apply (read_back_written ks b); [assumption|]. apply lookup_insert_eq.
Qed.

Lemma C6_witness :
  (main (w_openai (JStr (dq "{'keywords': ['a', 'b']}"))) s0).1 = Return tt
  /\ read_back (main (w_openai (JStr (dq "{'keywords': ['a', 'b']}"))) s0).2
     = Some (JArr [JStr (lit "a"); JStr (lit "b")]).
Proof.
  destruct (C6_round_trip (w_openai (JStr (dq "{'keywords': ['a', 'b']}"))) s0
              (ask (w_openai (JStr (dq "{'keywords': ['a', 'b']}")))
                 (prompt_of sample_day) s0).2
              (dq "{'keywords': ['a', 'b']}")
              [(lit "keywords", JArr [JStr (lit "a"); JStr (lit "b")])]
              [lit "a"; lit "b"])
    as (H1 & H2 & _); try (vm_compute; reflexivity); [discriminate|].
  split; assumption.
Defined.

(** ** The theorems at sample inputs *)

Lemma C1_witness :
  posted (main (w_both (JStr scenario_answer)) s0).2
  = [gemini_request (lit "g-test") (prompt_of sample_day)]
  /\ posted (main (w_openai (JStr scenario_answer)) s0).2
     = [openai_request (lit "sk-test") (prompt_of sample_day)]
  /\ posted (main w_no_key s0).2 = [].
Proof.
  split; [|split].
  - apply (C1_provider_selection (w_both (JStr scenario_answer)) s0);
      [reflexivity | discriminate].
  - apply (C1_provider_selection (w_openai (JStr scenario_answer)) s0);
      [now left | reflexivity | discriminate].
  - apply (C1_provider_selection w_no_key s0); now left.
Defined.

Lemma C8_witness :
  posted (main w_gemini_empty s0).2
  = [openai_request (lit "sk-test") (prompt_of sample_day)]
  /\ (main w_both_empty s0).1 = Raise no_key_error
  /\ posted (main w_both_empty s0).2 = []
  /\ main (unset (GEMINI_API_KEY_SECRET CONFIG) w_gemini_empty) s0
     = main w_gemini_empty s0.
Proof.
  split; [|split; [|split]].
  - apply (C8_empty_key_counts_as_absent w_gemini_empty s0);
      [reflexivity | reflexivity | discriminate].
  - apply (C8_empty_key_counts_as_absent w_both_empty s0); reflexivity.
  - apply (C8_empty_key_counts_as_absent w_both_empty s0); reflexivity.
  - apply (C8_empty_key_counts_as_absent w_gemini_empty s0);
      [now left | reflexivity].
Defined.


(** ** Further properties of a run *)

Lemma fueled_ret {A} (a : A) : fueled (mret a).
Proof. intros s. discriminate. Qed.

Lemma fueled_raise {A} (e : exn) : fueled (@raise_ A e).
Proof. intros s. discriminate. Qed.



Lemma fueled_json_loads (doc : str) : fueled (json_loads doc).
Proof.
  intros s. unfold json_loads. pose proof (loads_answers doc) as H.
  destruct (Decoder.loads doc); cbn; congruence.
Qed.

Lemma fueled_print (l : str) : fueled (print l).
Proof. intros s. discriminate. Qed.

Lemma fueled_post (w : world) (r : request) : fueled (requests_post w r).
Proof. intros s. unfold requests_post. destruct (transport w r); discriminate. Qed.

Lemma fueled_raise_for_status (r : response) : fueled (raise_for_status r).
Proof. intros s. unfold raise_for_status. repeat case_match; discriminate. Qed.

Lemma fueled_getitem (v : json) (sub : subscript) : fueled (getitem v sub).
Proof. intros s. unfold getitem. repeat case_match; discriminate. Qed.

Lemma fueled_as_str (m : str) (v : json) : fueled (as_str m v).
Proof. intros s. destruct v; discriminate. Qed.

Lemma fueled_py_get (v : json) (k : str) (d : json) : fueled (py_get v k d).
Proof. intros s. destruct v; discriminate. Qed.

Lemma fueled_py_len (v : json) : fueled (py_len v).
Proof. intros s. destruct v; discriminate. Qed.

Lemma fueled_dump (p : str) (v : json) : fueled (dump_to_file p v).
Proof.
  intros s. unfold dump_to_file.
  destruct (write_chunks _ _) as [b [e|]]; discriminate.
Qed.

Create HintDb fueled.
#[export] Hint Resolve fueled_ret fueled_raise fueled_json_loads fueled_print
  fueled_post fueled_raise_for_status fueled_getitem fueled_as_str fueled_py_get
  fueled_py_len fueled_dump : fueled.



Lemma handler_files (e : exn) (s : state) :
  exists b, files (main_handler e s).2 = <[OUTPUT_FILENAME CONFIG := b]> (files s).
Proof.
  unfold main_handler. rewrite bind_run. cbn [print]. rewrite bind_run.
  destruct (Utf8.encode (Encoder.dumps (result_object (error_keywords e))))
    as [b|] eqn:Hb.
  - rewrite (dump_to_file_written _ _ b) by assumption. now exists b.
  - match goal with
    | |- context [dump_to_file _ _ ?st] =>
        destruct (dump_to_file_stops (OUTPUT_FILENAME CONFIG) _ st Hb)
          as (b & ch & ->)
    end.
    now exists b.
Qed.

(** X2.  A run writes to no file but the output file: every other path
    holds after the run what it held before, however the run ends. *)
Theorem X2_only_the_output_file_changes (w : world) (s : state) (path : str) :
  path <> OUTPUT_FILENAME CONFIG ->
  files (main w s).2 !! path = files s !! path.
Proof.
  intros Hp. unfold main, try_except.
  pose proof (main_body_files w s) as Hf.
  destruct (main_body w (prompt_of (today w)) s) as [[[]|e|g] s1].
  - cbn [snd]. destruct Hf as (k & b & _ & _ & ->). now apply lookup_insert_ne.
  - destruct (handler_files e s1) as [b ->].
    rewrite lookup_insert_ne by congruence.
    destruct Hf as [-> | (b' & ->)]; [reflexivity|]. now apply lookup_insert_ne.
  - cbn [snd]. now rewrite Hf.
Qed.

Lemma X2_witness :
  files (main (w_openai (JStr scenario_answer)) s0).2 !! lit "notes.txt"
  = files s0 !! lit "notes.txt".
Proof.
  apply (X2_only_the_output_file_changes (w_openai (JStr scenario_answer)) s0).
  intros H. vm_compute in H. discriminate.
Defined.



(** ** [call_ai], service by service *)

Lemma call_ai_gemini (w : world) (prompt k : str) (s : state) :
  os_getenv w (GEMINI_API_KEY_SECRET CONFIG) = Some k -> k <> [] ->
  call_ai w prompt s =
    match transport w (gemini_request k prompt) with
    | inl e => (Raise e, posting (gemini_request k prompt) gemini_line s)
    | inr resp =>
        read_gemini resp (posting (gemini_request k prompt) gemini_line s)
    end.
Proof.
  intros Hk Hne. unfold call_ai.
  rewrite (key_truthy_usable _ _ _ Hk Hne), Hk. cbn [default from_option id].
  rewrite bind_run. cbn [print]. rewrite bind_run. unfold requests_post.
  cbn [posted printed files].
  destruct (transport w (gemini_request k prompt)); reflexivity.
Qed.

Lemma call_ai_openai (w : world) (prompt k : str) (s : state) :
  unusable w (GEMINI_API_KEY_SECRET CONFIG) ->
  os_getenv w (OPENAI_API_KEY_SECRET CONFIG) = Some k -> k <> [] ->
  call_ai w prompt s =
    match transport w (openai_request k prompt) with
    | inl e => (Raise e, posting (openai_request k prompt) openai_line s)
    | inr resp =>
        read_openai resp (posting (openai_request k prompt) openai_line s)
    end.
Proof.
  intros Hg Hk Hne. unfold call_ai.
  rewrite (key_truthy_unusable _ _ Hg), (key_truthy_usable _ _ _ Hk Hne), Hk.
  cbn [default from_option id].
  rewrite bind_run. cbn [print]. rewrite bind_run. unfold requests_post.
  cbn [posted printed files].
  destruct (transport w (openai_request k prompt)); reflexivity.
Qed.









Lemma raise_for_status_raises (r : response) (s : state) :
  (400 <= status_code r < 600)%Z ->
  raise_for_status r s = (Raise (http_error_of r), s).
Proof.
  unfold raise_for_status, http_error_of, raise_. intros H.
  destruct (Z.leb_spec 400 (status_code r)); [|lia].
  destruct (Z.ltb_spec (status_code r) 500); cbn [andb]; [reflexivity|].
  destruct (Z.leb_spec 500 (status_code r)); [|lia].
  destruct (Z.ltb_spec (status_code r) 600); [|lia]. reflexivity.
Qed.



(** X6.  When the status of the answer is between 400 and 599, [call_ai]
    raises the [HTTPError] that tells the status, the reason and the URL of
    the response, whatever the body holds: the body is not read. *)
Theorem X6_error_status_before_the_body
    (w : world) (prompt : str) (s : state) (k : str) (resp : response) :
  (400 <= status_code resp < 600)%Z ->
  k <> [] ->
  (unusable w (GEMINI_API_KEY_SECRET CONFIG) ->
   os_getenv w (OPENAI_API_KEY_SECRET CONFIG) = Some k ->
   transport w (openai_request k prompt) = inr resp ->
   call_ai w prompt s
   = (Raise (http_error_of resp),
      posting (openai_request k prompt) openai_line s))
  /\ (os_getenv w (GEMINI_API_KEY_SECRET CONFIG) = Some k ->
      transport w (gemini_request k prompt) = inr resp ->
      call_ai w prompt s
      = (Raise (http_error_of resp),
         posting (gemini_request k prompt) gemini_line s)).
Proof.
  intros Hst Hne. split.
  - intros Hg Hk Ht.
    rewrite (call_ai_openai w prompt k) by assumption. rewrite Ht.
    unfold read_openai. now rewrite bind_run, raise_for_status_raises.
  - intros Hk Ht.
    rewrite (call_ai_gemini w prompt k) by assumption. rewrite Ht.
    unfold read_gemini. now rewrite bind_run, raise_for_status_raises.
Qed.

Lemma X6_witness :
  call_ai (w_answer None (Some (lit "sk-test")) 429 scenario_answer) [] s0
  = (Raise (Exn HTTPError
              (lit "429 Client Error: OK for url: https://api.openai.com/v1/chat/completions")),
     posting (openai_request (lit "sk-test") []) openai_line s0).
Proof.
  apply (X6_error_status_before_the_body
           (w_answer None (Some (lit "sk-test")) 429 scenario_answer) [] s0
           (lit "sk-test") (Response 429 (lit "OK") openai_url scenario_answer));
    [cbn; lia | discriminate | now left | reflexivity | reflexivity].
Defined.

(** ** What a failed run leaves behind *)

Lemma read_back_error_entry (e : exn) (b : string) (s : state) :
  Utf8.encode (Encoder.dumps (result_object (error_keywords e))) = Some b ->
  files s !! OUTPUT_FILENAME CONFIG = Some b ->
  read_back s = Some (error_keywords e).
Proof. apply (read_back_written [error_prefix ++ exn_str e]). Qed.

Lemma main_body_ask_raises (w : world) (s s1 : state) (e : exn) :
  ask w (prompt_of (today w)) s = (Raise e, s1) ->
  main_body w (prompt_of (today w)) s = (Raise e, s1).
Proof. intros H. unfold main_body. now rewrite bind_run, H. Qed.



Lemma http_error_leaks (resp : response) (k : str) :
  response_url resp = gemini_url k ->
  exists pre,
    exn_str (http_error_of resp) = pre ++ k
    /\ (Utf8.encodable (reason resp) = true ->
        Utf8.encodable pre = true).
Proof.
  intros Hu. unfold http_error_of, gemini_url in *. cbn [exn_str].
  rewrite Hu.
  exists (repr_Z (status_code resp)
            ++ (if (status_code resp <? 500)%Z then lit " Client Error: "
                else lit " Server Error: ")
            ++ reason resp ++ lit " for url: "
            ++ lit "https://generativelanguage.googleapis.com/v1beta/models/gemini-1.5-flash-latest:generateContent?key=").
  split; [now rewrite <- !app_assoc|].
  intros Hr.
  rewrite !Utf8More.encodable_app, Utf8More.encodable_repr_Z, Hr.
  destruct (status_code resp <? 500)%Z; vm_compute; reflexivity.
Qed.

(** X8.  The Gemini key is part of the URL, and the message of an
    [HTTPError] quotes the URL of the response.  So when the Gemini service
    answers with an error status and the response carries the URL that was
    posted to, the run prints the key and stores it in the output file: the
    one string of the [keywords] list ends with the key. *)
Theorem X8_gemini_key_in_the_error_entry
    (w : world) (s : state) (k : str) (resp : response) :
  os_getenv w (GEMINI_API_KEY_SECRET CONFIG) = Some k ->
  k <> [] ->
  transport w (gemini_request k (prompt_of (today w))) = inr resp ->
  (400 <= status_code resp < 600)%Z ->
  response_url resp = gemini_url k ->
  Utf8.encodable k = true ->
  Utf8.encodable (reason resp) = true ->
  exists pre,
    (main w s).1 = Raise (Exn HTTPError (pre ++ k))
    /\ read_back (main w s).2 = Some (JArr [JStr (error_prefix ++ pre ++ k)])
    /\ last (printed (main w s).2)
       = Some (lit "❌ 오류가 발생했습니다: " ++ pre ++ k).
Proof.
  intros Hk Hne Ht Hst Hu Hek Her.
  destruct (http_error_leaks resp k Hu) as (pre & Hpre & Henc).
  specialize (Henc Her). exists pre.
  assert (http_error_of resp = Exn HTTPError (pre ++ k)) as He.
  { unfold http_error_of in *. cbn [exn_str] in Hpre. now rewrite Hpre. }
  assert (main_body w (prompt_of (today w)) s
          = (Raise (Exn HTTPError (pre ++ k)),
             posting (gemini_request k (prompt_of (today w))) gemini_line
               (printing first_line s))) as Hbody.
  { apply main_body_ask_raises. rewrite ask_run.
    rewrite (call_ai_gemini w _ k) by assumption. rewrite Ht.
    unfold read_gemini.
    now rewrite bind_run, raise_for_status_raises, He by assumption. }
  destruct (main_reraises w s _ _ Hbody) as (b & Hb & ->).
  { cbn [exn_str]. now rewrite Utf8More.encodable_app, Henc, Hek. }
  split; [reflexivity|]. split.
  - apply (read_back_error_entry (Exn HTTPError (pre ++ k)) b);
      [assumption | apply lookup_insert_eq].
  - cbn [snd writing printing printed posting]. now rewrite last_snoc.
Qed.

Lemma X8_witness :
  exists pre,
    (main (w_answer (Some (lit "g-secret")) None 403 []) s0).1
    = Raise (Exn HTTPError (pre ++ lit "g-secret"))
    /\ read_back (main (w_answer (Some (lit "g-secret")) None 403 []) s0).2
       = Some (JArr [JStr (error_prefix ++ pre ++ lit "g-secret")]).
Proof.
  destruct (X8_gemini_key_in_the_error_entry
              (w_answer (Some (lit "g-secret")) None 403 []) s0 (lit "g-secret")
              (Response 403 (lit "OK") (gemini_url (lit "g-secret")) []))
    as (pre & H1 & H2 & _);
    [reflexivity | discriminate | reflexivity | cbn; lia | reflexivity
    | reflexivity | reflexivity |].
  exists pre. split; assumption.
Defined.

Lemma selected_cases (w : world) (q : str) (r : request) :
  selected w q = [r] ->
  (exists k, os_getenv w (GEMINI_API_KEY_SECRET CONFIG) = Some k /\ k <> []
             /\ r = gemini_request k q)
  \/ (exists k, unusable w (GEMINI_API_KEY_SECRET CONFIG)
                /\ os_getenv w (OPENAI_API_KEY_SECRET CONFIG) = Some k
                /\ k <> [] /\ r = openai_request k q).
Proof.
  unfold selected, unusable.
  destruct (os_getenv w (GEMINI_API_KEY_SECRET CONFIG)) as [[|c k]|] eqn:Hg;
    cbn [key_truthy default from_option id].
  - destruct (os_getenv w (OPENAI_API_KEY_SECRET CONFIG)) as [[|c k]|];
      cbn [key_truthy default from_option id]; try discriminate.
    intros [= <-]. right. exists (c :: k).
    split; [now right|]. split; [reflexivity|]. split; [discriminate|reflexivity].
  - intros [= <-]. left. exists (c :: k).
    split; [reflexivity|]. split; [discriminate|reflexivity].
  - destruct (os_getenv w (OPENAI_API_KEY_SECRET CONFIG)) as [[|c k]|];
      cbn [key_truthy default from_option id]; try discriminate.
    intros [= <-]. right. exists (c :: k).
    split; [now left|]. split; [reflexivity|]. split; [discriminate|reflexivity].
Qed.

(** X9.  When [requests.post] itself raises (no connection, a time-out),
    [call_ai] raises the same exception, the request counted as posted; the
    run stores the error entry and ends with that exception.  Nothing is
    tried again and the other service is not called. *)
Theorem X9_post_failure_is_not_retried
    (w : world) (s : state) (r : request) (e : exn) :
  selected w (prompt_of (today w)) = [r] ->
  transport w r = inl e ->
  Utf8.encodable (exn_str e) = true ->
  (call_ai w (prompt_of (today w)) s).1 = Raise e
  /\ (main w s).1 = Raise e
  /\ posted (main w s).2 = posted s ++ [r]
  /\ read_back (main w s).2 = Some (JArr [JStr (error_prefix ++ exn_str e)]).
Proof.
  intros Hsel Ht Henc.
  assert (forall t, exists t',
            call_ai w (prompt_of (today w)) t = (Raise e, t')) as Hcall.
  { intros t. destruct (selected_cases w _ r Hsel)
      as [(k & Hk & Hne & ->) | (k & Hg & Hk & Hne & ->)].
    - rewrite (call_ai_gemini w _ k) by assumption. rewrite Ht. eauto.
    - rewrite (call_ai_openai w _ k) by assumption. rewrite Ht. eauto. }
  split; [destruct (Hcall s) as [t' ->]; reflexivity|].
  destruct (Hcall (printing first_line s)) as [s1 Hs1].
  assert (main_body w (prompt_of (today w)) s = (Raise e, s1)) as Hbody
    by (apply main_body_ask_raises; now rewrite ask_run).
  split; [|split].
  - now destruct (main_reraises w s s1 e Hbody Henc) as (b & _ & ->).
  - now rewrite posted_main, Hsel.
  - destruct (main_reraises w s s1 e Hbody Henc) as (b & Hb & ->).
    apply (read_back_error_entry e b); [assumption | apply lookup_insert_eq].
Qed.

Lemma X9_witness :
  (main (w_down (Some (lit "g-test")) (Some (lit "sk-test")) connection_refused)
     s0).1 = Raise connection_refused
  /\ map url
       (posted (main (w_down (Some (lit "g-test")) (Some (lit "sk-test"))
                        connection_refused) s0).2)
     = [gemini_url (lit "g-test")].
Proof.
  destruct (X9_post_failure_is_not_retried
              (w_down (Some (lit "g-test")) (Some (lit "sk-test"))
                 connection_refused) s0
              (gemini_request (lit "g-test") (prompt_of sample_day))
              connection_refused)
    as (_ & H1 & H2 & _); [vm_compute; reflexivity..|].
  split; [exact H1|]. rewrite H2. reflexivity.
Defined.

(** ** Answers the script does not expect *)






(** Of the environment the script reads the two key variables and nothing
    else: two worlds that agree on them (and on the date and the services)
    give the same run. *)
Lemma runs_agree_on_the_two_variables (w w' : world) (s : state) :
  today w = today w' ->
  transport w = transport w' ->
  os_getenv w (GEMINI_API_KEY_SECRET CONFIG)
  = os_getenv w' (GEMINI_API_KEY_SECRET CONFIG) ->
  os_getenv w (OPENAI_API_KEY_SECRET CONFIG)
  = os_getenv w' (OPENAI_API_KEY_SECRET CONFIG) ->
  (forall q t, call_ai w q t = call_ai w' q t)
  /\ main w s = main w' s.
Proof.
  intros Hd Ht Hg Ho.
  assert (forall q t, call_ai w q t = call_ai w' q t) as Hcall.
  { intros q t. unfold call_ai, requests_post. now rewrite Hg, Ho, Ht. }
  split; [assumption|].
  unfold main, try_except, main_body. rewrite !bind_run, !ask_run.
  now rewrite Hd, Hcall.
Qed.

Example runs_agree_with_one_more_variable :
  main (with_variable (lit "HOME") (lit "/root") (w_openai (JStr scenario_answer)))
    s0
  = main (w_openai (JStr scenario_answer)) s0.
Proof.
  apply (runs_agree_on_the_two_variables
           (with_variable (lit "HOME") (lit "/root")
              (w_openai (JStr scenario_answer)))
           (w_openai (JStr scenario_answer)) s0);
    vm_compute; reflexivity.
Defined.

(** ** The script run as a program *)

Lemma getenv_load_dotenv_set (dotenv : gmap (list N) (list N)) (w : world)
    (name v : str) :
  os_getenv w name = Some v -> os_getenv (load_dotenv dotenv w) name = Some v.
Proof. intros H. now apply lookup_union_Some_l. Qed.

Lemma getenv_load_dotenv_unset (dotenv : gmap (list N) (list N)) (w : world)
    (name : str) :
  os_getenv w name = None ->
  os_getenv (load_dotenv dotenv w) name = dotenv !! name.
Proof. intros H. now apply lookup_union_r. Qed.

Lemma script_run (dotenv : gmap (list N) (list N)) (w : world) (s : state) :
  script dotenv w s = main (load_dotenv dotenv w) (printing startup_line s).
Proof. reflexivity. Qed.

(** X12.  Run as a program, the script loads the [.env] file first, and
    the environment wins over the file: a variable the environment has keeps
    its value, also when that value is the empty string.  So two key
    variables that are set but empty hide the keys of the file and the run
    ends with the error that says no key is configured; a key that only
    the file defines is the one used. *)
Theorem X12_environment_wins_over_dotenv
    (dotenv : gmap (list N) (list N)) (w : world) (s : state) :
  (forall name v,
     os_getenv w name = Some v ->
     os_getenv (load_dotenv dotenv w) name = Some v)
  /\ (forall name,
        os_getenv w name = None ->
        os_getenv (load_dotenv dotenv w) name = dotenv !! name)
  /\ (os_getenv w (GEMINI_API_KEY_SECRET CONFIG) = Some [] ->
      os_getenv w (OPENAI_API_KEY_SECRET CONFIG) = Some [] ->
      (script dotenv w s).1 = Raise no_key_error
      /\ posted (script dotenv w s).2 = posted s)
  /\ (forall k,
        os_getenv w (GEMINI_API_KEY_SECRET CONFIG) = None ->
        dotenv !! GEMINI_API_KEY_SECRET CONFIG = Some k -> k <> [] ->
        posted (script dotenv w s).2
        = posted s ++ [gemini_request k (prompt_of (today w))]).
Proof.
  split; [|split; [|split]].
  - intros name v. apply getenv_load_dotenv_set.
  - intros name. apply getenv_load_dotenv_unset.
  - intros Hg Ho. rewrite script_run.
    destruct (main_no_key (load_dotenv dotenv w) (printing startup_line s))
      as (b & _ & ->).
    + right. now apply getenv_load_dotenv_set.
    + right. now apply getenv_load_dotenv_set.
    + split; reflexivity.
  - intros k Hg Hk Hne. rewrite script_run, posted_main.
    rewrite (selected_gemini _ _ k); [reflexivity| |assumption].
    now rewrite getenv_load_dotenv_unset.
Qed.

Lemma X12_witness :
  (script (<[GEMINI_API_KEY_SECRET CONFIG := lit "g-file"]> ∅) w_both_empty s0).1
  = Raise no_key_error
  /\ posted (script (<[GEMINI_API_KEY_SECRET CONFIG := lit "g-file"]> ∅)
               w_no_key s0).2
     = [gemini_request (lit "g-file") (prompt_of sample_day)].
Proof.
  split.
  - apply (X12_environment_wins_over_dotenv
             (<[GEMINI_API_KEY_SECRET CONFIG := lit "g-file"]> ∅)
             w_both_empty s0); reflexivity.
  - apply (X12_environment_wins_over_dotenv
             (<[GEMINI_API_KEY_SECRET CONFIG := lit "g-file"]> ∅)
             w_no_key s0); [reflexivity | reflexivity | discriminate].
Defined.

(** ** What the run does not make of the requests posted *)

Lemma agree_refl (s : state) : agree s s.
Proof. split; reflexivity. Qed.


Lemma fixed_ret {A} (a : A) : fixed (mret a).
Proof. now exists (Return a). Qed.

Lemma fixed_raise {A} (e : exn) : fixed (@raise_ A e).
Proof. now exists (Raise e). Qed.

Lemma fixed_raise_for_status (r : response) : fixed (raise_for_status r).
Proof.
  unfold raise_for_status.
  repeat match goal with
         | |- fixed (if ?b then _ else _) => destruct b
         end; first [apply fixed_ret | apply fixed_raise].
Qed.

Lemma fixed_json_loads (doc : str) : fixed (json_loads doc).
Proof.
  unfold json_loads. destruct (Decoder.loads doc); eexists; reflexivity.
Qed.

Lemma fixed_getitem (v : json) (sub : subscript) : fixed (getitem v sub).
Proof.
  unfold getitem.
  repeat match goal with
         | |- fixed (match ?x with _ => _ end) => destruct x
         end; eexists; reflexivity.
Qed.

Lemma fixed_as_str (m : str) (v : json) : fixed (as_str m v).
Proof. destruct v; eexists; reflexivity. Qed.

Lemma fixed_py_get (v : json) (k : str) (d : json) : fixed (py_get v k d).
Proof. destruct v; eexists; reflexivity. Qed.

Lemma fixed_py_len (v : json) : fixed (py_len v).
Proof. destruct v; eexists; reflexivity. Qed.



Lemma blind_print (l : str) : blind (print l).
Proof.
  intros s s' [Hp Hf]. split; [reflexivity|].
  split; cbn; congruence.
Qed.

Lemma blind_dump (p : str) (v : json) : blind (dump_to_file p v).
Proof.
  intros s s' [Hp Hf]. unfold dump_to_file.
  destruct (write_chunks _ _) as [b [e|]];
    (split; [reflexivity|]; split; cbn; congruence).
Qed.

Create HintDb blind.
#[export] Hint Resolve fixed_ret fixed_raise fixed_raise_for_status
  fixed_json_loads fixed_getitem fixed_as_str fixed_py_get fixed_py_len
  blind_print blind_dump : blind.








(** ** Reading back what [json.dump] wrote, for every value *)

Section Numbers.
Import Decoder Encoder.















End Numbers.

Section Layout.
Import Decoder Encoder.














End Layout.

Section RoundTrip.
Import Decoder Encoder.










End RoundTrip.

(** ** What the parser builds has distinct keys *)

Section Distinct.
Import Decoder.










End Distinct.

(** ** The output file of a run that succeeds *)




